(** * Pattern catalog post-processing: a verified model

    Shallow embedding of [pattern_search/postprocess_pattern_catalog.py].

    Modelling conventions.
    - Text is [string]: a sequence of 8-bit characters.  The model is exact on
      ASCII text; the only non-ASCII literal of the program, the arrow of the
      report (U+2192), is carried as its three UTF-8 bytes.
    - The [defaultdict(list)] objects, whose iteration order matters, are
      association lists in first-insertion order ([odict]).
    - The search index, a [defaultdict(set)], is a [gmap] from operation names
      to [gset]s of pattern names; [list(set)] is [elements].
    - The two dict shapes of a modification record are the two constructors
      of [modification]; subscripting with an absent key is a [KeyError].
    - The global counter, the files written, the directories made and the
      lines printed live in a [world] threaded through a state-and-error
      monad [M].  The one input/output failure modelled is opening an input
      file that does not exist; writing a file and making a directory always
      succeed. *)

From Stdlib Require Import Ascii String List Arith Lia DecimalString DecimalNat.
From stdpp Require Import gmap strings.
Import ListNotations.

(** ** Python string primitives *)

Module Str.

(** [str.isspace] on the ASCII range: TAB, LF, VT, FF, CR, FS, GS, RS, US and
    the space. *)
Definition is_space (c : ascii) : bool :=
  match c with
  | "009" | "010" | "011" | "012" | "013"
  | "028" | "029" | "030" | "031" | " " => true
  | _ => false
  end%char.

Fixpoint lstrip (s : string) : string :=
  match s with
  | EmptyString => EmptyString
  | String c s' => if is_space c then lstrip s' else s
  end.

Fixpoint rstrip (s : string) : string :=
  match s with
  | EmptyString => EmptyString
  | String c s' =>
      match rstrip s' with
      | EmptyString => if is_space c then EmptyString else String c EmptyString
      | r => String c r
      end
  end.

(** [s.strip()] *)
Definition strip (s : string) : string := rstrip (lstrip s).

(** [s.split(sep)] for a non-empty [sep]: the fields between the leftmost,
    non-overlapping occurrences of [sep].  [skip] counts the characters of an
    occurrence of [sep] that are still to be passed over. *)
Fixpoint split_from (sep : string) (skip : nat) (s : string) : list string :=
  match s with
  | EmptyString => [EmptyString]
  | String c s' =>
      match skip with
      | S k => split_from sep k s'
      | O =>
          if String.prefix sep (String c s')
          then EmptyString :: split_from sep (String.length sep - 1) s'
          else match split_from sep 0 s' with
               | f :: fs => String c f :: fs
               | [] => [String c EmptyString]
               end
      end
  end.

Definition split (sep s : string) : list string := split_from sep 0 s.

(** [s.endswith(c)] for a single character [c]. *)
Fixpoint endswith (s : string) (c : ascii) : bool :=
  match s with
  | EmptyString => false
  | String d EmptyString => Ascii.eqb d c
  | String _ s' => endswith s' c
  end.

(** [parts[0]] and [parts[-1]] of a list of fields. *)
Definition first (parts : list string) : string := hd EmptyString parts.
Definition last (parts : list string) : string := List.last parts EmptyString.

Definition is_upper (c : ascii) : bool :=
  (65 <=? nat_of_ascii c) && (nat_of_ascii c <=? 90).
Definition is_lower (c : ascii) : bool :=
  (97 <=? nat_of_ascii c) && (nat_of_ascii c <=? 122).
Definition is_digit (c : ascii) : bool :=
  (48 <=? nat_of_ascii c) && (nat_of_ascii c <=? 57).

Fixpoint map (f : ascii -> ascii) (s : string) : string :=
  match s with
  | EmptyString => EmptyString
  | String c s' => String (f c) (map f s')
  end.

(** [s.lower()] *)
Definition lower_char (c : ascii) : ascii :=
  if is_upper c then ascii_of_nat (nat_of_ascii c + 32) else c.
Definition lower (s : string) : string := map lower_char s.

Fixpoint forallb (P : ascii -> bool) (s : string) : bool :=
  match s with
  | EmptyString => true
  | String c s' => P c && forallb P s'
  end.

(** [str(n)], also what an f-string field prints for an [int]. *)
Definition of_nat (n : nat) : string := NilZero.string_of_uint (Nat.to_uint n).

End Str.

(** ** Records and the pattern dict *)

Inductive exn : Type :=
| KeyError (key : string)
| ValueError (msg : string)
| FileNotFoundError (path : string).

Definition res (A : Type) : Type := exn + A.

(** A modification record: [{"type": t, "old_op": o, "new_op": n}] or
    [{"type": t, "op": o}]. *)
Inductive modification : Type :=
| Replaced (type old_op new_op : string)
| Single (type op : string).

(** Subscripting a record. *)
Definition get_type (m : modification) : string :=
  match m with Replaced t _ _ | Single t _ => t end.
Definition get_old_op (m : modification) : res string :=
  match m with Replaced _ o _ => inr o | Single _ _ => inl (KeyError "old_op") end.
Definition get_new_op (m : modification) : res string :=
  match m with Replaced _ _ n => inr n | Single _ _ => inl (KeyError "new_op") end.
Definition get_op (m : modification) : res string :=
  match m with Single _ o => inr o | Replaced _ _ _ => inl (KeyError "op") end.

(** The operation names a record refers to. *)
Definition mod_ops (m : modification) : list string :=
  match m with
  | Replaced _ old_op new_op => [old_op; new_op]
  | Single _ op => [op]
  end.

(** An insertion-ordered [defaultdict(list)]. *)
Definition odict (V : Type) : Type := list (string * list V).

(** [d[k].append(v)] *)
Fixpoint dict_append {V : Type} (k : string) (v : V) (d : odict V) : odict V :=
  match d with
  | [] => [(k, [v])]
  | (k', vs) :: d' =>
      if String.eqb k' k then (k', vs ++ [v]) :: d'
      else (k', vs) :: dict_append k v d'
  end.

Definition keys {V : Type} (d : odict V) : list string := List.map fst d.

(** The five modification-type labels of the input format. *)
Definition REPLACED_WITH_OP : string := "notifyOperationReplaced (with op)".
Definition INSERTED : string := "notifyOperationInserted".
Definition ERASED : string := "notifyOperationErased".
Definition MODIFIED : string := "notifyOperationModified".
Definition REPLACED_WITH_VALUES : string := "notifyOperationReplaced (with values)".

Definition LABELS : list string :=
  [REPLACED_WITH_OP; INSERTED; ERASED; MODIFIED; REPLACED_WITH_VALUES].

(** ** [parse_file] *)

(** The body of the loop over the lines of the file. *)
Definition parse_line (patterns : odict modification) (line : string)
  : odict modification :=
  let line := Str.strip line in
  if String.eqb line "" then patterns
  else
    let parts := Str.split " | " line in
    if length parts <? 3 then patterns
    else
      let pattern_name :=
        if negb (String.eqb (Str.strip (nth 0 parts "")) "")
        then nth 0 parts "" else "unknown" in
      let modification_type := nth 1 parts "" in
      if String.eqb modification_type REPLACED_WITH_OP && (length parts =? 4)
      then
        let old_op := nth 2 parts "" in
        let new_op := nth 3 parts "" in
        dict_append pattern_name (Replaced modification_type old_op new_op) patterns
      else
        let op_name := nth 2 parts "" in
        dict_append pattern_name (Single modification_type op_name) patterns.

(** [parse_file] on the lines that iterating over the opened file yields. *)
Definition parse_lines (lines : list string) : odict modification :=
  fold_left parse_line lines [].

(** The fields of a line: [parts] in the loop of [parse_file]. *)
Definition fields (line : string) : list string :=
  Str.split " | " (Str.strip line).

(** The record that the loop of [parse_file] appends for a line with fields
    [parts]: the two branches of its [if]. *)
Definition record_of (parts : list string) : modification :=
  if String.eqb (nth 1 parts "") REPLACED_WITH_OP && (length parts =? 4)
  then Replaced (nth 1 parts "") (nth 2 parts "") (nth 3 parts "")
  else Single (nth 1 parts "") (nth 2 parts "").


(** ** Identifiers and links *)

(** [re.sub(r"[^a-zA-Z0-9_-]", "_", name)] *)
Definition is_filename_char (c : ascii) : bool :=
  Str.is_lower c || Str.is_upper c || Str.is_digit c
  || Ascii.eqb c "_" || Ascii.eqb c "-".
Definition sub_invalid (name : string) : string :=
  Str.map (fun c => if is_filename_char c then c else "_"%char) name.

(** The name without template parameters and namespaces: the two [split]
    lines shared by [sanitize_filename] and [extract_class_name]. *)
Definition extract_class_name (pattern_name : string) : string :=
  let name := Str.first (Str.split "<" pattern_name) in
  let name := Str.last (Str.split "::" name) in
  name.

(** [urllib.parse.quote(s)] with its default [safe="/"]: letters, digits and
    [_.-~/] are kept, every other byte becomes [%XX] in upper-case hex. *)
Definition hex_digit (n : nat) : ascii :=
  if n <? 10 then ascii_of_nat (48 + n) else ascii_of_nat (55 + n).
Definition is_unreserved (c : ascii) : bool :=
  Str.is_lower c || Str.is_upper c || Str.is_digit c
  || Ascii.eqb c "_" || Ascii.eqb c "." || Ascii.eqb c "-" || Ascii.eqb c "~"
  || Ascii.eqb c "/".
Fixpoint quote (s : string) : string :=
  match s with
  | EmptyString => EmptyString
  | String c s' =>
      if is_unreserved c then String c (quote s')
      else String "%" (String (hex_digit (nat_of_ascii c / 16))
                         (String (hex_digit (nat_of_ascii c mod 16)) (quote s')))
  end.

(** [os.path.join(a, b)] of [posixpath]. *)
Definition path_join (a b : string) : string :=
  if String.prefix "/" b then b
  else if String.eqb a "" || Str.endswith a "/"
       then a +:+ b
       else a +:+ "/" +:+ b.

(** The line feed and the double quote of the templates. *)
Definition nl : string := String "010" EmptyString.
Definition dq : string := String "034" EmptyString.

(** ** The world and the monad of effects *)

(** What a written file holds: the text of a report, or the [json.dump] of
    the search index (kept as the dumped object). *)
Inductive data : Type :=
| Text (content : string)
| Json (index : gmap string (list string)).

Record world : Type := World {
  unique_id : nat;                       (* the module-level counter *)
  today : string;                        (* datetime.now() as %Y-%m-%d *)
  inputs : gmap string (list string);    (* readable files, as their lines *)
  files : gmap string data;              (* files written, by path *)
  made_dirs : list string;               (* os.makedirs calls, latest first *)
  stdout : list string                   (* lines printed, latest first *)
}.

Definition M (A : Type) : Type := world -> res A * world.

Definition ret {A : Type} (a : A) : M A := fun w => (inr a, w).
Definition raise {A : Type} (e : exn) : M A := fun w => (inl e, w).
Definition bind {A B : Type} (m : M A) (k : A -> M B) : M B :=
  fun w => match m w with
           | (inr a, w') => k a w'
           | (inl e, w') => (inl e, w')
           end.
Definition lift {A : Type} (r : res A) : M A := fun w => (r, w).

Definition rbind {A B : Type} (r : res A) (k : A -> res B) : res B :=
  match r with inr a => k a | inl e => inl e end.

Declare Scope effect_scope.
Delimit Scope effect_scope with M.
Notation "'let*' x := m 'in' k" := (bind m (fun x => k))
  (at level 10, x name, m at level 100, k at level 200) : effect_scope.
Notation "m ;; k" := (bind m (fun _ => k))
  (at level 100, k at level 200, right associativity) : effect_scope.
Notation "'let?' x := r 'in' k" := (rbind r (fun x => k))
  (at level 10, x name, r at level 100, k at level 200).

(** [for x in l: body(x)] *)
Fixpoint for_each {A : Type} (l : list A) (body : A -> M unit) : M unit :=
  match l with
  | [] => ret tt
  | x :: l' => bind (body x) (fun _ => for_each l' body)
  end.

(** A loop that updates one local variable and may raise. *)
Fixpoint fold_res {A B : Type} (body : B -> A -> res B) (l : list A) (b : B)
  : res B :=
  match l with
  | [] => inr b
  | x :: l' => rbind (body b x) (fold_res body l')
  end.

Definition print (line : string) : M unit := fun w =>
  (inr tt, World (unique_id w) (today w) (inputs w) (files w) (made_dirs w)
                 (line :: stdout w)).
Definition makedirs (dir : string) : M unit := fun w =>
  (inr tt, World (unique_id w) (today w) (inputs w) (files w)
                 (dir :: made_dirs w) (stdout w)).
Definition write_file (path : string) (d : data) : M unit := fun w =>
  (inr tt, World (unique_id w) (today w) (inputs w) (<[path := d]> (files w))
                 (made_dirs w) (stdout w)).
Definition now : M string := fun w => (inr (today w), w).
Definition next_id : M nat := fun w =>
  (inr (unique_id w),
   World (S (unique_id w)) (today w) (inputs w) (files w) (made_dirs w)
         (stdout w)).

(** [parse_file]: the file is opened, then parsed line by line. *)
Definition parse_file (filename : string) : M (odict modification) := fun w =>
  match inputs w !! filename with
  | Some lines => (inr (parse_lines lines), w)
  | None => (inl (FileNotFoundError filename), w)
  end.

(** ** [sanitize_filename] *)

Definition sanitize_filename (pattern_name : string) : M string :=
  (let* id := next_id in
   let name := extract_class_name pattern_name in
   let name := sub_invalid name +:+ "_" +:+ Str.of_nat id in
   ret (Str.lower name))%M.

(** ** [create_hugo_post] *)

(** The [if]/[elif] chain that names the bucket of a record. *)
Definition bucket_of (type : string) : res string :=
  if String.eqb type REPLACED_WITH_OP then inr "Operations replaced"
  else if String.eqb type INSERTED then inr "Operations inserted"
  else if String.eqb type ERASED then inr "Operations erased"
  else if String.eqb type MODIFIED then inr "Operations modified"
  else if String.eqb type REPLACED_WITH_VALUES
       then inr "Operations replaced with values"
  else inl (ValueError ("unknown modification type: " +:+ type)).

(** The loop that fills [operations_by_type]. *)
Definition group_step (by_type : odict modification) (op : modification)
  : res (odict modification) :=
  let? label := bucket_of (get_type op) in
  inr (dict_append label op by_type).

Definition group_operations (operations : list modification)
  : res (odict modification) :=
  fold_res group_step operations [].

(** One list item of the report, appended to [content]. *)
Definition render_item (op_type : string) (content : string) (op : modification)
  : res string :=
  if String.eqb op_type "Operations replaced"
  then
    let? old_op := get_old_op op in
    let? new_op := get_new_op op in
    inr (content +:+ "- `" +:+ old_op +:+ "` → `" +:+ new_op +:+ "`" +:+ nl)
  else
    let? op_name := get_op op in
    inr (content +:+ "- `" +:+ op_name +:+ "`" +:+ nl).

(** One section of the report, appended to [content]. *)
Definition render_section (content : string)
  (section : string * list modification) : res string :=
  let '(op_type, ops) := section in
  let content := content +:+ "### " +:+ op_type +:+ nl +:+ nl in
  let? content := fold_res (render_item op_type) ops content in
  inr (content +:+ nl).

Definition search_url (pattern_name : string) : string :=
  let class_name := extract_class_name pattern_name in
  let search_query := quote ("path:mlir " +:+ dq +:+ class_name +:+ dq) in
  "https://github.com/search?q=repo%3Allvm%2Fllvm-project+" +:+ search_query
  +:+ "&type=code".

Definition header (pattern_name today github_url : string) : string :=
  "---" +:+ nl +:+
  "title: " +:+ dq +:+ pattern_name +:+ dq +:+ nl +:+
  "date: " +:+ today +:+ nl +:+
  "---" +:+ nl +:+
  nl +:+
  "# `" +:+ pattern_name +:+ "`" +:+ nl +:+
  nl +:+
  "[Search in LLVM Project](" +:+ github_url +:+ ")" +:+ nl +:+
  nl +:+
  "## Operations Modified" +:+ nl +:+
  nl.

Definition create_hugo_post (pattern_name : string)
  (operations : list modification) (output_dir : string) : M unit :=
  (let* filename := sanitize_filename pattern_name in
   let filepath := path_join output_dir (filename +:+ ".md") in
   let github_url := search_url pattern_name in
   let* operations_by_type := lift (group_operations operations) in
   let* today := now in
   let content := header pattern_name today github_url in
   let* content := lift (fold_res render_section operations_by_type content) in
   makedirs output_dir ;;
   write_file filepath (Text content) ;;
   print ("Generated: " +:+ filepath))%M.

(** What [create_hugo_post] computes, apart from its effects: the identifier
    it gets from [sanitize_filename] when the counter is [id], the path it
    writes to, and the text it writes. *)
Definition identifier (pattern_name : string) (id : nat) : string :=
  Str.lower (sub_invalid (extract_class_name pattern_name) +:+ "_"
             +:+ Str.of_nat id).

Definition post_path (output_dir pattern_name : string) (id : nat) : string :=
  path_join output_dir (identifier pattern_name id +:+ ".md").

Definition report (pattern_name : string) (operations : list modification)
  (today : string) : res string :=
  let? operations_by_type := group_operations operations in
  fold_res render_section operations_by_type
    (header pattern_name today (search_url pattern_name)).

(** The bucket label of a record with a recognized type. *)
Definition label_of (m : modification) : string :=
  match bucket_of (get_type m) with inr label => label | inl _ => "" end.

Definition has_label (label : string) (m : modification) : bool :=
  String.eqb (label_of m) label.

(** The distinct elements of a list, in the order of their first
    occurrences. *)
Fixpoint first_seen (l : list string) : list string :=
  match l with
  | [] => []
  | x :: l' => x :: List.filter (fun y => negb (String.eqb y x)) (first_seen l')
  end.

(** The buckets in the order in which the records first fill them, each with
    its records in their order. *)
Definition sections_first_seen (operations : list modification)
  : odict modification :=
  List.map (fun label => (label, List.filter (has_label label) operations))
           (first_seen (List.map label_of operations)).

(** The order of the bucket labels as the specification fixes it. *)
Definition BUCKET_ORDER : list string :=
  ["Operations replaced"; "Operations inserted"; "Operations erased";
   "Operations modified"; "Operations replaced with values"].

(** The non-empty buckets in the fixed order of the specification: what that
    document says the sections of a report are. *)
Definition sections_in_fixed_order (operations : list modification)
  : odict modification :=
  List.filter (fun section => negb (length (snd section) =? 0))
    (List.map (fun label => (label, List.filter (has_label label) operations))
              BUCKET_ORDER).

(** ** [generate_posts] *)

Definition generate_posts (patterns : odict modification) (output_dir : string)
  : M unit :=
  (print ("Found " +:+ Str.of_nat (length patterns) +:+ " patterns") ;;
   for_each patterns (fun '(pattern_name, operations) =>
     create_hugo_post pattern_name operations output_dir) ;;
   print ("Generated " +:+ Str.of_nat (length patterns) +:+ " blog posts in "
          +:+ output_dir))%M.

(** ** [preprocess_data] *)

(** [search_index[op].add(pattern_name)] on a [defaultdict(set)]. *)
Definition index_add (op pattern_name : string)
  (search_index : gmap string (gset string)) : gmap string (gset string) :=
  <[op := default ∅ (search_index !! op) ∪ {[pattern_name]}]> search_index.

(** The body of the inner loop over the records of one pattern. *)
Definition index_mod (pattern_name : string)
  (search_index : gmap string (gset string)) (mod_ : modification)
  : res (gmap string (gset string)) :=
  let mod_type := get_type mod_ in
  if String.eqb mod_type REPLACED_WITH_OP
  then
    let? old_op := get_old_op mod_ in
    let search_index := index_add old_op pattern_name search_index in
    let? new_op := get_new_op mod_ in
    inr (index_add new_op pattern_name search_index)
  else
    let? op := get_op mod_ in
    inr (index_add op pattern_name search_index).

(** The body of the outer loop over the patterns. *)
Definition index_pattern (search_index : gmap string (gset string))
  (entry : string * list modification) : res (gmap string (gset string)) :=
  let '(pattern_name, mods) := entry in
  fold_res (index_mod pattern_name) mods search_index.

(** The search index as it is dumped: both loops, then every set turned into
    a list. *)
Definition build_search_index (patterns : odict modification)
  : res (gmap string (list string)) :=
  let? search_index := fold_res index_pattern patterns ∅ in
  inr (elements <$> search_index).

(** [p] is listed under the key [op] of the index under construction. *)
Definition listed (idx : gmap string (gset string)) (op p : string) : Prop :=
  exists names : gset string, idx !! op = Some names /\ p ∈ names.

(** The records of [mods] refer to [op]. *)
Definition refers (mods : list modification) (op : string) : Prop :=
  exists m, m ∈ mods /\ op ∈ mod_ops m.

(** A record has the keys that its type label promises. *)
Definition well_shaped (m : modification) : Prop :=
  match m with
  | Replaced t _ _ => t = REPLACED_WITH_OP
  | Single t _ => t <> REPLACED_WITH_OP
  end.

Definition preprocess_data (input_file output_dir class_pages_dir
  index_output_dir index_output_filename : string) : M unit :=
  (makedirs output_dir ;;
   let* patterns := parse_file input_file in
   let* search_index := lift (build_search_index patterns) in
   write_file (path_join index_output_dir index_output_filename)
              (Json search_index) ;;
   generate_posts patterns class_pages_dir ;;
   print ("Preprocessing complete. Search index saved to '"
          +:+ path_join output_dir index_output_filename +:+ "'") ;;
   print ("Class pages generated in '" +:+ class_pages_dir +:+ "'"))%M.

(** [preprocess_data(input_file)]: every optional argument at its default. *)
Definition preprocess_data_default (input_file : string) : M unit :=
  preprocess_data input_file "search_data" "website/content/patterns/"
    "website/static/" "pattern_catalog_index.json".

(** The script body under [if __name__ == "__main__"]. *)
Definition main (argv : list string) : M unit :=
  if negb (length argv =? 2)
  then raise (ValueError
         "Usage: postprocess_pattern_catalog.py path/to/pattern_catalog.txt")
  else preprocess_data_default (nth 1 argv "").

(** The state of a fresh process: counter at 0, nothing written or printed. *)
Definition initial_world (date : string) (readable : gmap string (list string))
  : world :=
  World 0 date readable ∅ [] [].

(** ** Vocabulary of the further properties *)

(** A line that the loop of [parse_file] does not skip. *)
Definition kept (line : string) : bool := 3 <=? length (fields line).

(** The pattern name and the dict entry that a kept line contributes. *)
Definition name_of (line : string) : string := nth 0 (fields line) "".
Definition entry_of (line : string) : string * modification :=
  (name_of line, record_of (fields line)).

(** The dict that appending the pairs of [kvs] one after the other builds:
    keys in first-seen order, values in the order of the pairs. *)
Definition grouped {V : Type} (kvs : list (string * V)) : odict V :=
  List.map (fun k => (k, List.map snd
                           (List.filter (fun kv => String.eqb (fst kv) k) kvs)))
           (first_seen (List.map fst kvs)).

(** All the values of a dict, bucket after bucket. *)
Definition values {V : Type} (d : odict V) : list V := List.concat (List.map snd d).

(** Characters of a generated identifier: [a-z0-9_-]. *)
Definition is_identifier_char (c : ascii) : bool :=
  Str.is_lower c || Str.is_digit c || Ascii.eqb c "_" || Ascii.eqb c "-".

(** Characters of a quoted query: the unreserved ones and the percent sign. *)
Definition is_quoted_char (c : ascii) : bool :=
  is_unreserved c || Ascii.eqb c "%".

(** Every set of the index under construction has a member. *)
Definition inhabited_sets (idx : gmap string (gset string)) : Prop :=
  forall op names, idx !! op = Some names -> exists p, p ∈ names.

(** The progress lines of the reports of [patterns], first to last, when the
    counter starts at [id]. *)
Fixpoint generated_lines (dir : string) (patterns : odict modification)
  (id : nat) : list string :=
  match patterns with
  | [] => []
  | (name, _) :: rest =>
      ("Generated: " +:+ post_path dir name id)
      :: generated_lines dir rest (S id)
  end.

(** A computation that returned. *)
Definition returns {A : Type} (r : res A) : Prop := exists a, r = inr a.


Example split_three : Str.split " | " "a | b | c" = ["a"; "b"; "c"].
Proof. reflexivity. Qed.

Example split_edges : Str.split " | " " | a |  | b | " = [""; "a"; ""; "b"; ""].
Proof. reflexivity. Qed.

Example split_ns : Str.split "::" "a::b:::c" = ["a"; "b"; ":c"].
Proof. reflexivity. Qed.

Example strip_line : Str.strip ("  a | b " +:+ nl) = "a | b".
Proof. reflexivity. Qed.

Example of_nat_values : List.map Str.of_nat [0; 7; 10; 123] = ["0"; "7"; "10"; "123"].
Proof. reflexivity. Qed.

Example lower_mixed : Str.lower "Ab_Z-9" = "ab_z-9".
Proof. reflexivity. Qed.

Example sub_invalid_mixed : sub_invalid "My Op.v2!" = "My_Op_v2_".
Proof. reflexivity. Qed.

Example quote_query :
  quote ("path:mlir " +:+ dq +:+ "Foo_1" +:+ dq) = "path%3Amlir%20%22Foo_1%22".
Proof. reflexivity. Qed.

Example path_join_cases :
  path_join "search_data" "x.json" = "search_data/x.json" /\
  path_join "website/static/" "x.json" = "website/static/x.json" /\
  path_join "" "x.json" = "x.json" /\
  path_join "out" "/tmp/x.json" = "/tmp/x.json".
Proof. repeat split. Qed.

Example parse_two_lines :
  parse_lines ["Foo | notifyOperationReplaced (with op) | A | B" +:+ "
"; "  "; "Bar | notifyOperationErased | C"; "Foo | notifyOperationInserted | D | x"; "junk | y"]
  = [("Foo", [Replaced REPLACED_WITH_OP "A" "B"; Single INSERTED "D"]);
     ("Bar", [Single ERASED "C"])].
Proof. reflexivity. Qed.

(** * Properties *)

(** ** Stripping and splitting *)

Section strings.
Implicit Types (s t a b sep : string) (c : ascii).

Lemma str_app_nil_l s : "" +:+ s = s.
Proof. done. Qed.

Lemma str_app_cons c s t : String c s +:+ t = String c (s +:+ t).
Proof. done. Qed.

Lemma str_app_nil_r s : s +:+ "" = s.
Proof. induction s as [|c s IH]; [done|]. by rewrite str_app_cons, IH. Qed.

Lemma str_app_assoc s t a : (s +:+ t) +:+ a = s +:+ t +:+ a.
Proof. induction s as [|c s IH]; [done|]. by rewrite !str_app_cons, IH. Qed.

Lemma str_length_app s t : String.length (s +:+ t) = String.length s + String.length t.
Proof. induction s as [|c s IH]; [done|]. rewrite str_app_cons. simpl. by rewrite IH. Qed.

Lemma str_app_inv_head s a b : s +:+ a = s +:+ b -> a = b.
Proof.
  induction s as [|c s IH]; [done|]. rewrite !str_app_cons. intros [= H]. auto.
Qed.

Lemma str_app_inv_tail s a b : a +:+ s = b +:+ s -> a = b.
Proof.
  revert b. induction a as [|c a IH]; intros [|d b] H.
  - done.
  - apply (f_equal String.length) in H.
    rewrite str_app_nil_l, str_app_cons in H. simpl in H. rewrite str_length_app in H. lia.
  - apply (f_equal String.length) in H.
    rewrite str_app_nil_l, str_app_cons in H. simpl in H. rewrite str_length_app in H. lia.
  - rewrite !str_app_cons in H. injection H as -> H. f_equal. by apply IH.
Qed.


Lemma lstrip_head s :
  Str.lstrip s = "" \/
  exists c t, Str.lstrip s = String c t /\ Str.is_space c = false.
Proof.
  induction s as [|c s IH]; simpl; [by left|].
  destruct (Str.is_space c) eqn:Hc; [exact IH|].
  right. by exists c, s.
Qed.

Lemma rstrip_head c t :
  Str.is_space c = false -> exists t', Str.rstrip (String c t) = String c t'.
Proof.
  intros Hc. simpl. destruct (Str.rstrip t) as [|d r].
  - rewrite Hc. by exists "".
  - by exists (String d r).
Qed.

Lemma strip_head s :
  Str.strip s = "" \/
  exists c t, Str.strip s = String c t /\ Str.is_space c = false.
Proof.
  unfold Str.strip. destruct (lstrip_head s) as [->|(c & t & -> & Hc)].
  - by left.
  - right. destruct (rstrip_head c t Hc) as [t' ->]. by exists c, t'.
Qed.

Lemma strip_nonempty c t :
  Str.is_space c = false -> Str.strip (String c t) <> "".
Proof.
  intros Hc. unfold Str.strip. simpl Str.lstrip. rewrite Hc.
  destruct (rstrip_head c t Hc) as [t' ->]. discriminate.
Qed.

Lemma split_from_nonnil sep k s : Str.split_from sep k s <> [].
Proof.
  revert k. induction s as [|c s IH]; intros k; cbn [Str.split_from]; [done|].
  destruct k; [|apply IH].
  case (String.prefix sep (String c s)); [done|].
  by case (Str.split_from sep 0 s).
Qed.

(** A line that starts with anything but a space starts its first field with
    that character. *)
Lemma split_pipe_head c t :
  Str.is_space c = false ->
  exists f fs, Str.split " | " (String c t) = String c f :: fs.
Proof.
  intros Hc. unfold Str.split. cbn [Str.split_from].
  assert (String.prefix " | " (String c t) = false) as ->.
  { cbn [String.prefix]. destruct (ascii_dec " " c) as [<-|]; [|done].
    vm_compute in Hc. discriminate Hc. }
  destruct (Str.split_from " | " 0 t) as [|f fs]; eauto.
Qed.

(** The first field of a stripped line is never blank. *)
Lemma first_field_not_blank line :
  Str.strip line <> "" ->
  Str.strip (nth 0 (Str.split " | " (Str.strip line)) "") <> "".
Proof.
  intros Hne. destruct (strip_head line) as [?|(c & t & -> & Hc)]; [done|].
  destruct (split_pipe_head c t Hc) as (f & fs & ->). simpl.
  by apply strip_nonempty.
Qed.

(** [split] by its equations: the empty string, a string that starts with
    the separator, and any other string. *)
Lemma split_empty sep : Str.split sep "" = [""].
Proof. done. Qed.

Lemma prefix_app sep s :
  String.prefix sep s = true -> exists r, s = sep +:+ r.
Proof.
  revert s. induction sep as [|c sep IH]; intros s; [by exists s|].
  destruct s as [|d s]; [done|]. cbn [String.prefix].
  destruct (ascii_dec c d) as [<-|]; [|done].
  intros [r ->]%IH. by exists r.
Qed.

Lemma prefix_app_true sep r : String.prefix sep (sep +:+ r) = true.
Proof.
  induction sep as [|c sep IH]; [by destruct r|].
  rewrite str_app_cons. cbn [String.prefix]. by destruct (ascii_dec c c).
Qed.

Lemma split_from_skip sep a s :
  Str.split_from sep (String.length a) (a +:+ s) = Str.split_from sep 0 s.
Proof.
  induction a as [|c a IH]; [done|]. rewrite str_app_cons. by cbn.
Qed.

Lemma split_sep sep r :
  sep <> "" -> Str.split sep (sep +:+ r) = "" :: Str.split sep r.
Proof.
  intros Hsep. unfold Str.split. destruct sep as [|c sep]; [done|].
  rewrite str_app_cons. cbn [Str.split_from].
  rewrite <- str_app_cons, prefix_app_true. f_equal.
  cbn [String.length]. rewrite Nat.sub_1_r. cbn [Nat.pred].
  apply split_from_skip.
Qed.

Lemma split_char sep c s :
  String.prefix sep (String c s) = false ->
  Str.split sep (String c s)
  = String c (hd "" (Str.split sep s)) :: tl (Str.split sep s).
Proof.
  intros Hp. unfold Str.split. cbn [Str.split_from]. rewrite Hp.
  pose proof (split_from_nonnil sep 0 s). by destruct (Str.split_from sep 0 s).
Qed.

(** Joining the fields with the separator gives the string back. *)
Lemma join_split sep s : sep <> "" -> String.concat sep (Str.split sep s) = s.
Proof.
  intros Hsep. remember (String.length s) as n eqn:Hn. revert s Hn.
  induction n as [n IH] using lt_wf_ind. intros [|c s] Hn; [done|].
  destruct (String.prefix sep (String c s)) eqn:Hp.
  - apply prefix_app in Hp as [r Hr]. rewrite Hr, split_sep by done.
    assert (String.length r < n) as Hlt.
    { rewrite Hn, Hr, str_length_app. destruct sep; [done | simpl; lia]. }
    pose proof (IH _ Hlt r eq_refl) as Hr'.
    pose proof (split_from_nonnil sep 0 r) as Hne. unfold Str.split in *.
    destruct (Str.split_from sep 0 r) as [|f fs]; [done|].
    change (String.concat sep ("" :: f :: fs))
      with ("" +:+ sep +:+ String.concat sep (f :: fs)).
    by rewrite Hr', str_app_nil_l.
  - rewrite split_char by done.
    assert (String.length s < n) as Hlt by (rewrite Hn; simpl; lia).
    pose proof (IH _ Hlt s eq_refl) as Hs.
    pose proof (split_from_nonnil sep 0 s) as Hne. unfold Str.split in *.
    destruct (Str.split_from sep 0 s) as [|f [|g fs]]; [done|..].
    + simpl in *. by rewrite Hs.
    + change (String.concat sep (f :: g :: fs))
        with (f +:+ sep +:+ String.concat sep (g :: fs)) in Hs.
      change (String c f +:+ sep +:+ String.concat sep (g :: fs) = String c s).
      by rewrite str_app_cons, Hs.
Qed.

End strings.

(** ** The insertion-ordered dict *)

Section odict.
Context {V : Type}.
Implicit Types (d : odict V) (k : string) (v : V).

Lemma keys_dict_append k v d :
  keys (dict_append k v d) = if decide (k ∈ keys d) then keys d else keys d ++ [k].
Proof.
  induction d as [|[k' vs] d IH]; simpl.
  - done.
  - destruct (String.eqb_spec k' k) as [->|Hne]; simpl.
    + rewrite decide_True; [done | left].
    + rewrite IH. destruct (decide (k ∈ keys d)) as [Hin|Hout].
      * rewrite decide_True; [done | by right].
      * rewrite decide_False; [done|]. intros [?|?]%elem_of_cons; congruence.
Qed.

Lemma dict_append_new k v d :
  exists vs, (k, vs) ∈ dict_append k v d /\ v ∈ vs.
Proof.
  induction d as [|[k' vs] d (vs' & Hin & Hv)]; simpl.
  - exists [v]. split; left.
  - destruct (String.eqb_spec k' k) as [->|Hne].
    + exists (vs ++ [v]). split; [left | apply elem_of_app; right; left].
    + exists vs'. split; [by right | done].
Qed.

Lemma dict_append_old k v d k' vs x :
  (k', vs) ∈ d -> x ∈ vs ->
  exists vs', (k', vs') ∈ dict_append k v d /\ x ∈ vs'.
Proof.
  induction d as [|[k0 vs0] d IH]; simpl; intros Hin Hx.
  - by apply elem_of_nil in Hin.
  - apply elem_of_cons in Hin as [[= <- <-]|Hin].
    + destruct (String.eqb_spec k' k) as [->|Hne].
      * exists (vs ++ [v]). split; [left | apply elem_of_app; by left].
      * exists vs. split; [left | done].
    + destruct (IH Hin Hx) as (vs' & Hin' & Hx').
      destruct (String.eqb_spec k0 k) as [->|Hne];
        [exists vs; split; [by right | done] | exists vs'; split; [by right | done]].
Qed.

Lemma dict_append_inv k v d k' vs' x :
  (k', vs') ∈ dict_append k v d -> x ∈ vs' ->
  (k' = k /\ x = v) \/ exists vs, (k', vs) ∈ d /\ x ∈ vs.
Proof.
  induction d as [|[k0 vs0] d IH]; simpl; intros Hin Hx.
  - apply list_elem_of_singleton in Hin as [= -> ->].
    apply list_elem_of_singleton in Hx as ->. by left.
  - destruct (String.eqb_spec k0 k) as [->|Hne].
    + apply elem_of_cons in Hin as [[= -> ->]|Hin].
      * apply elem_of_app in Hx as [Hx|Hx].
        -- right. exists vs0. split; [left | done].
        -- apply list_elem_of_singleton in Hx as ->. by left.
      * right. exists vs'. split; [by right | done].
    + apply elem_of_cons in Hin as [[= -> ->]|Hin].
      * right. exists vs0. split; [left | done].
      * destruct (IH Hin Hx) as [?|(vs & ? & ?)]; [by left|].
        right. exists vs. split; [by right | done].
Qed.

End odict.

(** ** The parser *)

Section parser.
Implicit Types (line : string) (lines : list string)
  (patterns : odict modification).

Lemma fields_blank line : Str.strip line = "" -> length (fields line) = 1.
Proof. unfold fields. by intros ->. Qed.

(** The loop body either skips the line or appends [record_of] its fields
    under its first field. *)
Lemma parse_line_cases patterns line :
  (length (fields line) < 3 /\ parse_line patterns line = patterns) \/
  (3 <= length (fields line) /\
   parse_line patterns line
   = dict_append (nth 0 (fields line) "") (record_of (fields line)) patterns).
Proof.
  unfold parse_line. destruct (String.eqb_spec (Str.strip line) "") as [He|Hne].
  - left. rewrite (fields_blank _ He). split; [lia | done].
  - fold (fields line). destruct (Nat.ltb_spec (length (fields line)) 3) as [Hlt|Hge].
    + by left.
    + right. split; [done|].
      pose proof (first_field_not_blank line Hne) as Hnb. fold (fields line) in Hnb.
      destruct (String.eqb_spec (Str.strip (nth 0 (fields line) "")) "") as [?|_]; [done|].
      simpl negb. cbv iota. unfold record_of.
      by destruct (String.eqb (nth 1 (fields line) "") REPLACED_WITH_OP
                   && (length (fields line) =? 4)).
Qed.

Lemma parse_lines_snoc lines line :
  parse_lines (lines ++ [line]) = parse_line (parse_lines lines) line.
Proof. unfold parse_lines. by rewrite fold_left_app. Qed.

(** Every key of the parsed dict is the first field of a line with at least
    three fields. *)
Lemma parse_lines_keys lines k :
  k ∈ keys (parse_lines lines) ->
  exists line, line ∈ lines /\ 3 <= length (fields line)
               /\ k = nth 0 (fields line) "".
Proof.
  induction lines as [|line lines IH] using rev_ind.
  - intros Hin. by apply elem_of_nil in Hin.
  - rewrite parse_lines_snoc.
    assert (forall l : string, l ∈ lines -> l ∈ lines ++ [line]) as Hold
      by (intros l ?; apply elem_of_app; by left).
    assert (line ∈ lines ++ [line]) as Hlast
      by (apply elem_of_app; right; left).
    destruct (parse_line_cases (parse_lines lines) line) as [[_ ->]|[Hge ->]].
    + intros (l & ? & ?)%IH. exists l. auto.
    + rewrite keys_dict_append. case_decide.
      * intros (l & ? & ?)%IH. exists l. auto.
      * intros [(l & ? & ?)%IH | Hk%list_elem_of_singleton]%elem_of_app.
        -- exists l. auto.
        -- exists line. auto.
Qed.

(** Every parsed record is [record_of] the fields of some line. *)
Lemma parse_lines_records lines name mods m :
  (name, mods) ∈ parse_lines lines -> m ∈ mods ->
  exists line, line ∈ lines /\ 3 <= length (fields line)
               /\ name = nth 0 (fields line) "" /\ m = record_of (fields line).
Proof.
  revert mods. induction lines as [|line lines IH] using rev_ind; intros mods.
  - intros Hin. by apply elem_of_nil in Hin.
  - rewrite parse_lines_snoc.
    assert (forall l : string, l ∈ lines -> l ∈ lines ++ [line]) as Hold
      by (intros l ?; apply elem_of_app; by left).
    assert (line ∈ lines ++ [line]) as Hlast
      by (apply elem_of_app; right; left).
    destruct (parse_line_cases (parse_lines lines) line) as [[_ ->]|[Hge ->]].
    + intros Hin Hm. destruct (IH _ Hin Hm) as (l & ? & ?). exists l. auto.
    + intros Hin Hm.
      destruct (dict_append_inv _ _ _ _ _ _ Hin Hm) as [[-> ->]|(vs & Hin' & Hm')].
      * exists line. auto.
      * destruct (IH _ Hin' Hm') as (l & ? & ?). exists l. auto.
Qed.

(** Conversely, every line with at least three fields leaves its record under
    its first field. *)
Lemma parse_lines_complete lines line :
  line ∈ lines -> 3 <= length (fields line) ->
  exists mods, (nth 0 (fields line) "", mods) ∈ parse_lines lines
               /\ record_of (fields line) ∈ mods.
Proof.
  induction lines as [|l lines IH] using rev_ind.
  - intros Hin. by apply elem_of_nil in Hin.
  - rewrite parse_lines_snoc. intros Hin Hge.
    apply elem_of_app in Hin as [Hin|Hin%list_elem_of_singleton].
    + destruct (IH Hin Hge) as (mods & Hm & Hr).
      destruct (parse_line_cases (parse_lines lines) l) as [[_ ->]|[_ ->]]; [eauto|].
      by eapply dict_append_old.
    + subst l.
      destruct (parse_line_cases (parse_lines lines) line) as [[? _]|[_ ->]]; [lia|].
      apply dict_append_new.
Qed.

End parser.

(** ** The search index *)

Section index.
Implicit Types (idx : gmap string (gset string)) (op p q : string)
  (m : modification) (patterns : odict modification).

Lemma index_add_same idx op p : listed (index_add op p idx) op p.
Proof.
  unfold listed, index_add. eexists. rewrite lookup_insert_eq.
  split; [done | set_solver].
Qed.

Lemma index_add_mono idx op p op' q :
  listed idx op' q -> listed (index_add op p idx) op' q.
Proof.
  intros (names & Hl & Hq). unfold listed, index_add.
  destruct (decide (op = op')) as [->|Hne].
  - eexists. rewrite lookup_insert_eq, Hl. split; [done | set_solver].
  - exists names. by rewrite lookup_insert_ne.
Qed.

Lemma index_add_inv idx op p op' q :
  listed (index_add op p idx) op' q ->
  (op' = op /\ q = p) \/ listed idx op' q.
Proof.
  unfold listed, index_add. intros (names & Hl & Hq).
  destruct (decide (op = op')) as [->|Hne].
  - rewrite lookup_insert_eq in Hl. injection Hl as <-.
    apply elem_of_union in Hq as [Hq|Hq%elem_of_singleton]; [|by left].
    right. destruct (idx !! op') as [names|]; [by exists names|].
    by apply not_elem_of_empty in Hq.
  - rewrite lookup_insert_ne in Hl by done. right. by exists names.
Qed.

Lemma index_mod_listed p idx m idx' :
  index_mod p idx m = inr idx' ->
  (forall op, op ∈ mod_ops m -> listed idx' op p) /\
  (forall op q, listed idx op q -> listed idx' op q) /\
  (forall op q, listed idx' op q ->
     (q = p /\ op ∈ mod_ops m) \/ listed idx op q).
Proof.
  unfold index_mod.
  destruct m as [t o n|t o]; simpl; destruct (String.eqb t REPLACED_WITH_OP);
    simpl; intros [= <-].
  - split; [|split].
    + intros op [->|Hop%list_elem_of_singleton]%elem_of_cons.
      * apply index_add_mono, index_add_same.
      * subst op. apply index_add_same.
    + intros op q H. by do 2 apply index_add_mono.
    + intros op q [[-> ->]|[[-> ->]|H]%index_add_inv]%index_add_inv.
      * left. split; [done | right; left].
      * left. split; [done | left].
      * by right.
  - split; [|split].
    + intros op Hop%list_elem_of_singleton. subst op. apply index_add_same.
    + intros op q H. by apply index_add_mono.
    + intros op q [[-> ->]|H]%index_add_inv; [left; split; [done|left] | by right].
Qed.

Lemma index_mods_listed p mods idx idx' :
  fold_res (index_mod p) mods idx = inr idx' ->
  (forall op, refers mods op -> listed idx' op p) /\
  (forall op q, listed idx op q -> listed idx' op q) /\
  (forall op q, listed idx' op q ->
     (q = p /\ refers mods op) \/ listed idx op q).
Proof.
  revert idx. induction mods as [|m mods IH]; simpl; intros idx.
  - intros [= <-]. split; [|split]; [|done|by right].
    intros op (m & []%elem_of_nil & _).
  - destruct (index_mod p idx m) as [e|idx1] eqn:Hm; simpl; [done|].
    intros Hfold. destruct (IH _ Hfold) as (Hall & Hmono & Hinv).
    destruct (index_mod_listed _ _ _ _ Hm) as (Hall1 & Hmono1 & Hinv1).
    split; [|split].
    + intros op (m' & [->|Hin]%elem_of_cons & Hop).
      * by apply Hmono, Hall1.
      * apply Hall. by exists m'.
    + intros op q H. by apply Hmono, Hmono1.
    + intros op q [[-> (m' & ? & ?)]|[[-> ?]|H]%Hinv1]%Hinv.
      * left. split; [done|]. exists m'. split; [by right | done].
      * left. split; [done|]. exists m. split; [left | done].
      * by right.
Qed.

Lemma index_patterns_listed patterns idx idx' :
  fold_res index_pattern patterns idx = inr idx' ->
  (forall p mods op, (p, mods) ∈ patterns -> refers mods op -> listed idx' op p) /\
  (forall op q, listed idx op q -> listed idx' op q) /\
  (forall op q, listed idx' op q ->
     (exists mods, (q, mods) ∈ patterns /\ refers mods op) \/ listed idx op q).
Proof.
  revert idx. induction patterns as [|[p0 mods0] patterns IH]; simpl; intros idx.
  - intros [= <-]. split; [|split]; [|done|by right].
    intros p mods op []%elem_of_nil.
  - destruct (fold_res (index_mod p0) mods0 idx) as [e|idx1] eqn:Hm; simpl; [done|].
    intros Hfold. destruct (IH _ Hfold) as (Hall & Hmono & Hinv).
    destruct (index_mods_listed _ _ _ _ Hm) as (Hall1 & Hmono1 & Hinv1).
    split; [|split].
    + intros p mods op [[= -> ->]|Hin]%elem_of_cons Hop.
      * by apply Hmono, Hall1.
      * by eapply Hall.
    + intros op q H. by apply Hmono, Hmono1.
    + intros op q [(mods & ? & ?)|[[-> ?]|H]%Hinv1]%Hinv.
      * left. exists mods. split; [by right | done].
      * left. exists mods0. split; [left | done].
      * by right.
Qed.

Lemma listed_empty op q : ~ listed ∅ op q.
Proof. intros (names & Hl & _). by rewrite lookup_empty in Hl. Qed.

(** The dumped index: under every key a duplicate-free list of exactly the
    patterns that refer to the key. *)
Lemma build_search_index_spec patterns index :
  build_search_index patterns = inr index ->
  (forall op l, index !! op = Some l -> NoDup l) /\
  (forall p mods op, (p, mods) ∈ patterns -> refers mods op ->
     exists l, index !! op = Some l /\ p ∈ l) /\
  (forall op l q, index !! op = Some l -> q ∈ l ->
     exists mods, (q, mods) ∈ patterns /\ refers mods op).
Proof.
  unfold build_search_index.
  destruct (fold_res index_pattern patterns ∅) as [e|idx] eqn:Hfold; simpl; [done|].
  intros [= <-]. destruct (index_patterns_listed _ _ _ Hfold) as (Hall & _ & Hinv).
  split; [|split].
  - intros op l. rewrite lookup_fmap.
    destruct (idx !! op) as [names|]; simpl; [|done].
    intros [= <-]. apply NoDup_elements.
  - intros p mods op Hin Hop. destruct (Hall _ _ _ Hin Hop) as (names & Hl & Hp).
    exists (elements names). rewrite lookup_fmap, Hl. split; [done|].
    by apply elem_of_elements.
  - intros op l q. rewrite lookup_fmap.
    destruct (idx !! op) as [names|] eqn:Hl; simpl; [|done].
    intros [= <-] Hq%elem_of_elements.
    destruct (Hinv op q) as [?|[]%listed_empty]; [by exists names | done].
Qed.

Lemma index_mod_total p idx m :
  well_shaped m -> exists idx', index_mod p idx m = inr idx'.
Proof.
  unfold index_mod. destruct m as [t o n|t o]; simpl.
  - intros ->. simpl. eauto.
  - intros Hne. destruct (String.eqb_spec t REPLACED_WITH_OP); [done|]. simpl. eauto.
Qed.

Lemma build_search_index_total patterns :
  (forall p mods m, (p, mods) ∈ patterns -> m ∈ mods -> well_shaped m) ->
  exists index, build_search_index patterns = inr index.
Proof.
  unfold build_search_index.
  enough (forall idx, (forall p mods m, (p, mods) ∈ patterns -> m ∈ mods -> well_shaped m) ->
            exists idx', fold_res index_pattern patterns idx = inr idx') as Hgen.
  { intros Hws. destruct (Hgen ∅ Hws) as [idx' ->]. simpl. eauto. }
  induction patterns as [|[p0 mods0] patterns IH]; simpl; intros idx Hws; [eauto|].
  assert (forall idx, exists idx', fold_res (index_mod p0) mods0 idx = inr idx') as Hmods.
  { assert (forall m, m ∈ mods0 -> well_shaped m) as Hws0
      by (intros m ?; eapply Hws; [left | done]).
    clear -Hws0. induction mods0 as [|m mods0 IHm]; simpl; intros idx; [eauto|].
    destruct (index_mod_total p0 idx m) as [idx1 ->]; [apply Hws0; left|]. simpl.
    apply IHm. intros m' ?. apply Hws0. by right. }
  destruct (Hmods idx) as [idx1 ->]. simpl.
  apply IH. intros p mods m ? ?. eapply Hws; [by right | done].
Qed.

End index.

Section index_claims.

Lemma index_mod_shape p idx m idx' :
  index_mod p idx m = inr idx' -> well_shaped m.
Proof.
  unfold index_mod. destruct m as [t o n|t o]; simpl;
    destruct (String.eqb_spec t REPLACED_WITH_OP); simpl; done.
Qed.

(** The index is built only if every record is well shaped. *)
Lemma build_search_index_shape patterns index p mods m :
  build_search_index patterns = inr index ->
  (p, mods) ∈ patterns -> m ∈ mods -> well_shaped m.
Proof.
  unfold build_search_index.
  destruct (fold_res index_pattern patterns ∅) as [e|idx'] eqn:Hfold; [done|].
  intros _. revert Hfold. generalize (∅ : gmap string (gset string)).
  induction patterns as [|[p0 mods0] patterns IH]; simpl; intros idx Hfold.
  - intros []%elem_of_nil.
  - destruct (fold_res (index_mod p0) mods0 idx) as [e|idx1] eqn:Hm; simpl in Hfold; [done|].
    intros [[= -> ->]|Hin]%elem_of_cons Hmem; [|by eapply IH].
    clear -Hm Hmem. revert idx Hm.
    induction mods0 as [|m0 mods0 IHm]; simpl; intros idx Hm.
    + by apply elem_of_nil in Hmem.
    + destruct (index_mod p0 idx m0) as [e|idx2] eqn:H0; simpl in Hm; [done|].
      apply elem_of_cons in Hmem as [->|Hmem]; [by eapply index_mod_shape | by eapply IHm].
Qed.

(** [record_of] yields the pair shape only under the with-op label. *)
Lemma record_of_shape parts :
  match record_of parts with
  | Replaced t _ _ => t = REPLACED_WITH_OP /\ length parts = 4
  | Single t _ => t = nth 1 parts "" /\ (t <> REPLACED_WITH_OP \/ length parts <> 4)
  end.
Proof.
  unfold record_of. destruct (String.eqb_spec (nth 1 parts "") REPLACED_WITH_OP) as [He|Hne];
    destruct (Nat.eqb_spec (length parts) 4); simpl; auto.
Qed.

End index_claims.

(** C2. For every pattern group (in particular one returned by the parser)
    for which the index is built, every operation name of every record (both
    [old_op] and [new_op] of a replaced-with-op record, the single [op]
    otherwise) is a key of the dumped index, and the list under that key
    is free of duplicates and holds the name of the pattern exactly once,
    however many of its records refer to the operation. *)
Theorem search_index_complete_nodup
  (patterns : odict modification) (index : gmap string (list string))
  (p op : string) (mods : list modification) (m : modification) :
  build_search_index patterns = inr index ->
  (p, mods) ∈ patterns -> m ∈ mods -> op ∈ mod_ops m ->
  exists l, index !! op = Some l /\ p ∈ l /\ NoDup l
            /\ count_occ string_dec l p = 1.
Proof.
  intros Hbuild Hin Hm Hop.
  destruct (build_search_index_spec _ _ Hbuild) as (Hnodup & Hall & _).
  destruct (Hall p mods op Hin) as (l & Hl & Hp); [by exists m|].
  exists l. split; [done|]. split; [done|]. split; [by eapply Hnodup|].
  apply NoDup_count_occ'; [eapply NoDup_ListNoDup, Hnodup, Hl | by apply list_elem_of_In].
Qed.

Lemma search_index_complete_nodup_witness :
  let patterns :=
    parse_lines ["P | notifyOperationInserted | A";
                 "Q | notifyOperationReplaced (with op) | A | B";
                 "P | notifyOperationErased | A"] in
  exists index, build_search_index patterns = inr index /\
    exists l, index !! "A" = Some l /\ "P" ∈ l /\ NoDup l
              /\ count_occ string_dec l "P" = 1.
Proof.
  intros patterns. eexists. split; [reflexivity|].
  apply (search_index_complete_nodup patterns _ "P" "A"
           [Single INSERTED "A"; Single ERASED "A"] (Single ERASED "A")).
  - reflexivity.
  - left.
  - right. left.
  - left.
Defined.

(** C9. Lines are stripped before they are split on [" | "], so the first
    field of a line that passes the three-field check is never empty nor
    blank: the ["unknown"] substitution is never taken, and every key of the
    parsed dict is, verbatim, the first field of some input line. *)
Theorem unknown_substitution_unreachable (lines : list string) (line k : string) :
  (3 <= length (fields line) -> Str.strip (nth 0 (fields line) "") <> "") /\
  (3 <= length (fields line) ->
     forall patterns,
       parse_line patterns line
       = dict_append (nth 0 (fields line) "") (record_of (fields line)) patterns) /\
  (k ∈ keys (parse_lines lines) ->
     exists l, l ∈ lines /\ 3 <= length (fields l) /\ k = nth 0 (fields l) ""
               /\ Str.strip k <> "").
Proof.
  assert (forall l, 3 <= length (fields l) -> Str.strip (nth 0 (fields l) "") <> "")
    as Hfirst.
  { intros l Hge. apply first_field_not_blank. intros He.
    rewrite (fields_blank _ He) in Hge. lia. }
  split; [apply Hfirst|]. split.
  - intros Hge patterns.
    destruct (parse_line_cases patterns line) as [[? _]|[_ ->]]; [lia | done].
  - intros (l & Hin & Hge & ->)%parse_lines_keys. exists l. auto.
Qed.

Lemma unknown_substitution_unreachable_witness :
  let lines := ["  | notifyOperationErased | A | B"; "Foo | notifyOperationErased | A"] in
  Str.strip (nth 0 (fields "Foo | notifyOperationErased | A") "") <> "" /\
  exists l, l ∈ lines /\ 3 <= length (fields l) /\ "| notifyOperationErased" = nth 0 (fields l) ""
            /\ Str.strip "| notifyOperationErased" <> "".
Proof.
  intros lines.
  destruct (unknown_substitution_unreachable lines "Foo | notifyOperationErased | A"
              "| notifyOperationErased") as (H1 & _ & H3).
  split.
  - apply H1. vm_compute. lia.
  - apply H3. vm_compute. left.
Defined.

(** C4. The line
    ["FooPattern | notifyOperationReplaced (with op) | OldOp | NewOp"] puts,
    under the pattern [FooPattern], a replaced-with-op record with
    [old_op = "OldOp"] and [new_op = "NewOp"]; the index of a file made of that
    line is built, and a built index lists [FooPattern] under both keys
    ["OldOp"] and ["NewOp"]. *)
Theorem foo_pattern_replaced_line (lines : list string) (line : string) :
  Str.strip line
    = "FooPattern | notifyOperationReplaced (with op) | OldOp | NewOp" ->
  line ∈ lines ->
  parse_lines [line]
    = [("FooPattern", [Replaced REPLACED_WITH_OP "OldOp" "NewOp"])] /\
  build_search_index (parse_lines [line])
    = inr {[ "OldOp" := ["FooPattern"]; "NewOp" := ["FooPattern"] ]} /\
  (exists mods, ("FooPattern", mods) ∈ parse_lines lines
                /\ Replaced REPLACED_WITH_OP "OldOp" "NewOp" ∈ mods) /\
  (forall index, build_search_index (parse_lines lines) = inr index ->
     exists old_names new_names,
       index !! "OldOp" = Some old_names /\ "FooPattern" ∈ old_names /\
       index !! "NewOp" = Some new_names /\ "FooPattern" ∈ new_names).
Proof.
  intros Hstrip Hin.
  assert (fields line = ["FooPattern"; REPLACED_WITH_OP; "OldOp"; "NewOp"]) as Hf
    by (unfold fields; by rewrite Hstrip).
  assert (parse_lines [line]
          = [("FooPattern", [Replaced REPLACED_WITH_OP "OldOp" "NewOp"])]) as Hone.
  { unfold parse_lines. simpl fold_left.
    destruct (parse_line_cases [] line) as [[Hlt _]|[_ ->]].
    - rewrite Hf in Hlt. simpl in Hlt. lia.
    - by rewrite Hf. }
  destruct (parse_lines_complete lines line Hin) as (mods & Hmods & Hrec).
  { rewrite Hf. simpl. lia. }
  rewrite Hf in Hmods, Hrec. change (record_of _) with
    (Replaced REPLACED_WITH_OP "OldOp" "NewOp") in Hrec. simpl nth in Hmods.
  split; [done|]. split; [rewrite Hone; reflexivity|].
  split; [by exists mods|].
  intros index Hbuild.
  destruct (build_search_index_spec _ _ Hbuild) as (_ & Hall & _).
  destruct (Hall "FooPattern" mods "OldOp" Hmods) as (l1 & ? & ?).
  { eexists. split; [exact Hrec | left]. }
  destruct (Hall "FooPattern" mods "NewOp" Hmods) as (l2 & ? & ?).
  { eexists. split; [exact Hrec | right; left]. }
  by exists l1, l2.
Qed.

Lemma foo_pattern_replaced_line_witness :
  let line := String.append
    "FooPattern | notifyOperationReplaced (with op) | OldOp | NewOp" nl in
  let lines := ["Bar | notifyOperationInserted | OldOp"; line] in
  parse_lines [line]
    = [("FooPattern", [Replaced REPLACED_WITH_OP "OldOp" "NewOp"])] /\
  exists index, build_search_index (parse_lines lines) = inr index /\
    exists old_names new_names,
      index !! "OldOp" = Some old_names /\ "FooPattern" ∈ old_names /\
      index !! "NewOp" = Some new_names /\ "FooPattern" ∈ new_names.
Proof.
  intros line lines.
  destruct (foo_pattern_replaced_line lines line) as (H1 & _ & _ & H4).
  - vm_compute. reflexivity.
  - right. left.
  - split; [exact H1|]. eexists. split; [reflexivity|].
    apply H4. reflexivity.
Defined.

(** C1 (the code departs from it). A line whose second field is the with-op
    label and that has three or five fields is parsed into a record built
    from field 2 alone under that label; the index builder then subscripts
    the record with ["old_op"], which it lacks: the build raises [KeyError]
    and the run stops before anything is written. *)
Theorem replaced_with_op_wrong_arity_raises :
  let three := "P | notifyOperationReplaced (with op) | A" in
  let five := "P | notifyOperationReplaced (with op) | A | B | C" in
  parse_lines [three] = [("P", [Single REPLACED_WITH_OP "A"])] /\
  parse_lines [five] = [("P", [Single REPLACED_WITH_OP "A"])] /\
  build_search_index (parse_lines [three]) = inl (KeyError "old_op") /\
  build_search_index (parse_lines [five]) = inl (KeyError "old_op") /\
  forall date,
    main ["postprocess_pattern_catalog.py"; "catalog.txt"]
         (initial_world date {[ "catalog.txt" := [three] ]})
    = (inl (KeyError "old_op"),
       World 0 date {[ "catalog.txt" := [three] ]} ∅ ["search_data"] []).
Proof. repeat split. Qed.

Lemma index_mod_error p idx m e :
  index_mod p idx m = inl e ->
  match m with Replaced t _ _ => t = REPLACED_WITH_OP | Single _ _ => True end ->
  e = KeyError "old_op".
Proof.
  unfold index_mod. destruct m as [t o n|t o]; simpl.
  - by intros H ->.
  - destruct (String.eqb t REPLACED_WITH_OP); simpl; [by intros [= <-] | done].
Qed.

Lemma index_mods_error p mods idx e :
  fold_res (index_mod p) mods idx = inl e ->
  (forall m, m ∈ mods ->
     match m with Replaced t _ _ => t = REPLACED_WITH_OP | Single _ _ => True end) ->
  e = KeyError "old_op".
Proof.
  revert idx. induction mods as [|m mods IH]; simpl; intros idx; [done|].
  intros Hfold Hshape. destruct (index_mod p idx m) as [e'|idx'] eqn:Hm; simpl in Hfold.
  - injection Hfold as <-. eapply index_mod_error; [done | apply Hshape; left].
  - eapply IH; [done|]. intros m' ?. apply Hshape. by right.
Qed.

(** The general form of the defect: whatever else the file holds, one such
    line makes the index build raise [KeyError] on ["old_op"]. *)
Lemma replaced_with_op_wrong_arity_general (lines : list string) (line : string) :
  line ∈ lines -> 3 <= length (fields line) -> length (fields line) <> 4 ->
  nth 1 (fields line) "" = REPLACED_WITH_OP ->
  build_search_index (parse_lines lines) = inl (KeyError "old_op").
Proof.
  intros Hin Hge Hne Hlabel.
  destruct (build_search_index (parse_lines lines)) as [e|index] eqn:Hbuild.
  - f_equal. unfold build_search_index in Hbuild.
    destruct (fold_res index_pattern (parse_lines lines) ∅) as [e'|idx] eqn:Hfold;
      [|done].
    injection Hbuild as <-.
    assert (forall name mods m, (name, mods) ∈ parse_lines lines -> m ∈ mods ->
              match m with
              | Replaced t _ _ => t = REPLACED_WITH_OP
              | Single _ _ => True
              end) as Hshape.
    { intros name mods m Hn Hm.
      destruct (parse_lines_records _ _ _ _ Hn Hm) as (l & _ & _ & _ & ->).
      pose proof (record_of_shape (fields l)) as Hs.
      destruct (record_of (fields l)); [by destruct Hs | done]. }
    revert Hfold Hshape. generalize (∅ : gmap string (gset string)).
    induction (parse_lines lines) as [|[p0 mods0] patterns IH]; simpl;
      intros idx0 Hfold Hshape; [done|].
    destruct (fold_res (index_mod p0) mods0 idx0) as [e0|idx1] eqn:Hm; simpl in Hfold.
    + injection Hfold as <-. eapply index_mods_error; [done|].
      intros m ?. eapply Hshape; [left | done].
    + eapply IH; [done|]. intros name mods m ? ?. eapply Hshape; [by right | done].
  - destruct (parse_lines_complete lines line Hin Hge) as (mods & Hmods & Hrec).
    pose proof (build_search_index_shape _ _ _ _ _ Hbuild Hmods Hrec) as Hshape.
    pose proof (record_of_shape (fields line)) as Hrs.
    destruct (record_of (fields line)) as [t o n|t o]; simpl in Hshape.
    + destruct Hrs as [_ ?]. done.
    + destruct Hrs as [-> [?|?]]; done.
Qed.

(** ** Identifiers *)

Section identifiers.
Implicit Types (s t a b : string) (c : ascii) (n : nat).

Lemma forallb_app P s t :
  Str.forallb P (s +:+ t) = Str.forallb P s && Str.forallb P t.
Proof.
  induction s as [|c s IH]; [done|]. rewrite str_app_cons. simpl.
  by rewrite IH, andb_assoc.
Qed.

Lemma forallb_impl (P Q : ascii -> bool) s :
  (forall c, P c = true -> Q c = true) ->
  Str.forallb P s = true -> Str.forallb Q s = true.
Proof.
  intros HPQ. induction s as [|c s IH]; [done|]. simpl.
  intros [Hc Hs]%andb_prop. rewrite (HPQ _ Hc). simpl. auto.
Qed.

(** The text after the last separator character determines itself. *)
Lemma app_sep_inj (P : ascii -> bool) c a b s t :
  P c = false -> Str.forallb P s = true -> Str.forallb P t = true ->
  a +:+ String c s = b +:+ String c t -> a = b /\ s = t.
Proof.
  intros Hc Hs Ht. revert b. induction a as [|x a IH]; intros [|y b].
  - rewrite !str_app_nil_l. by intros [= ->].
  - rewrite str_app_nil_l, str_app_cons. intros [= <- ->].
    rewrite forallb_app in Hs. simpl in Hs. rewrite Hc, andb_false_r in Hs. done.
  - rewrite str_app_nil_l, str_app_cons. intros [= -> <-].
    rewrite forallb_app in Ht. simpl in Ht. rewrite Hc, andb_false_r in Ht. done.
  - rewrite !str_app_cons. intros [= -> H]. destruct (IH _ H) as [-> ->]. done.
Qed.

Lemma map_app f s t : Str.map f (s +:+ t) = Str.map f s +:+ Str.map f t.
Proof. induction s as [|c s IH]; [done|]. rewrite str_app_cons. simpl. by rewrite IH. Qed.

Lemma lower_app s t : Str.lower (s +:+ t) = Str.lower s +:+ Str.lower t.
Proof. apply map_app. Qed.

Lemma lower_fixed s :
  Str.forallb (fun c => negb (Str.is_upper c)) s = true -> Str.lower s = s.
Proof.
  induction s as [|c s IH]; [done|]. simpl. intros [Hc Hs]%andb_prop.
  unfold Str.lower. cbn [Str.map]. fold (Str.lower s). rewrite (IH Hs).
  unfold Str.lower_char. apply negb_true_iff in Hc. by rewrite Hc.
Qed.

Lemma digits_of_uint d : Str.forallb Str.is_digit (NilEmpty.string_of_uint d) = true.
Proof. induction d; simpl; auto. Qed.

Lemma of_nat_digits n : Str.forallb Str.is_digit (Str.of_nat n) = true.
Proof.
  unfold Str.of_nat, NilZero.string_of_uint.
  destruct (Nat.to_uint n) eqn:E; [done | rewrite <- E; apply digits_of_uint ..].
Qed.

Lemma to_uint_nonnil n : Nat.to_uint n <> Decimal.Nil.
Proof.
  intros H. pose proof (Unsigned.of_to n) as Hn. rewrite H in Hn.
  simpl in Hn. subst n. discriminate H.
Qed.

Lemma of_nat_inj n n' : Str.of_nat n = Str.of_nat n' -> n = n'.
Proof.
  unfold Str.of_nat. intros H. apply (f_equal NilZero.uint_of_string) in H.
  rewrite !NilZero.usu in H by apply to_uint_nonnil.
  injection H as H. by apply Unsigned.to_uint_inj.
Qed.

Lemma digit_not_upper c : Str.is_digit c = true -> negb (Str.is_upper c) = true.
Proof.
  unfold Str.is_digit, Str.is_upper. intros [_ H]%andb_prop.
  apply Nat.leb_le in H. apply negb_true_iff, andb_false_iff. left.
  apply Nat.leb_gt. lia.
Qed.

Lemma lower_of_nat n : Str.lower (Str.of_nat n) = Str.of_nat n.
Proof.
  apply lower_fixed. eapply forallb_impl; [apply digit_not_upper | apply of_nat_digits].
Qed.

(** The identifier is the lower-cased sanitized name, an underscore and the
    counter in decimal. *)
Lemma identifier_eq name n :
  identifier name n
  = Str.lower (sub_invalid (extract_class_name name)) +:+ "_" +:+ Str.of_nat n.
Proof. unfold identifier. by rewrite !lower_app, lower_of_nat. Qed.

Lemma sanitize_filename_eq name w :
  sanitize_filename name w
  = (inr (identifier name (unique_id w)),
     World (S (unique_id w)) (today w) (inputs w) (files w) (made_dirs w)
           (stdout w)).
Proof. done. Qed.

End identifiers.

(** ** Report files *)

Section posts.
Implicit Types (w : world) (dir name : string) (n : nat)
  (ops : list modification) (patterns : odict modification).

Lemma sanitized_char_not_slash c :
  Str.lower_char (if is_filename_char c then c else "_"%char) <> "/"%char.
Proof. destruct c as [[] [] [] [] [] [] [] []]; vm_compute; discriminate. Qed.

Lemma identifier_not_absolute name n s :
  String.prefix "/" (identifier name n +:+ s) = false.
Proof.
  rewrite identifier_eq. unfold sub_invalid.
  destruct (extract_class_name name) as [|c base]; [done|].
  cbn [Str.map]. unfold Str.lower. cbn [Str.map]. rewrite !str_app_cons.
  cbn [String.prefix].
  destruct (ascii_dec "/" _) as [He|]; [|done].
  symmetry in He. by apply sanitized_char_not_slash in He.
Qed.

(** Within one directory the path of a report is a fixed prefix, the
    identifier and the extension. *)
Lemma post_path_eq dir :
  exists prefix, forall name n,
    post_path dir name n = prefix +:+ identifier name n +:+ ".md".
Proof.
  unfold post_path, path_join.
  destruct (String.eqb dir "" || Str.endswith dir "/") eqn:E.
  - exists dir. intros name n. by rewrite identifier_not_absolute.
  - exists (dir +:+ "/"). intros name n.
    by rewrite identifier_not_absolute, str_app_assoc.
Qed.

Lemma digit_not_underscore c :
  Str.is_digit c = true -> negb (Ascii.eqb c "_") = true.
Proof.
  intros H. apply negb_true_iff. destruct (Ascii.eqb_spec c "_") as [->|]; [|done].
  by vm_compute in H.
Qed.

(** Reports written with different counter values have different paths. *)
Lemma post_path_inj dir name name' n n' :
  post_path dir name n = post_path dir name' n' -> n = n'.
Proof.
  destruct (post_path_eq dir) as [prefix Heq]. rewrite !Heq, !identifier_eq.
  assert (forall a b, prefix +:+ (a +:+ "_" +:+ b) +:+ ".md"
                      = (prefix +:+ a) +:+ String "_" (b +:+ ".md")) as Hre
    by (intros a b; by rewrite !str_app_assoc).
  rewrite !Hre. intros H.
  apply (app_sep_inj (fun c => negb (Ascii.eqb c "_"))) in H as [_ H]; [|done|..].
  - by apply str_app_inv_tail, of_nat_inj in H.
  - rewrite forallb_app, andb_true_iff. split; [|done].
    eapply forallb_impl; [apply digit_not_underscore | apply of_nat_digits].
  - rewrite forallb_app, andb_true_iff. split; [|done].
    eapply forallb_impl; [apply digit_not_underscore | apply of_nat_digits].
Qed.

Lemma identifier_inj name name' n n' :
  identifier name n = identifier name' n' -> n = n'.
Proof.
  intros H. apply (post_path_inj "" name name'). unfold post_path. by rewrite H.
Qed.

(** [create_hugo_post] in one step: the counter always advances; the report
    is written, and announced, unless grouping or rendering raises. *)
Lemma create_hugo_post_eq name ops dir w :
  create_hugo_post name ops dir w =
  match report name ops (today w) with
  | inr content =>
      (inr tt,
       World (S (unique_id w)) (today w) (inputs w)
             (<[post_path dir name (unique_id w) := Text content]> (files w))
             (dir :: made_dirs w)
             (("Generated: " +:+ post_path dir name (unique_id w)) :: stdout w))
  | inl e =>
      (inl e,
       World (S (unique_id w)) (today w) (inputs w) (files w) (made_dirs w)
             (stdout w))
  end.
Proof.
  unfold create_hugo_post, report, bind, lift, now. rewrite sanitize_filename_eq.
  cbn [unique_id today inputs files made_dirs stdout].
  destruct (group_operations ops) as [e|by_type]; [done|]. simpl rbind.
  by destruct (fold_res render_section by_type _) as [e|content].
Qed.

(** The loop of [generate_posts], when it runs to its end: the [i]-th pattern
    is written with the counter advanced by [i], no other path is touched. *)
Lemma for_each_posts patterns dir w w' :
  for_each patterns (fun '(pattern_name, operations) =>
    create_hugo_post pattern_name operations dir) w = (inr tt, w') ->
  unique_id w' = unique_id w + length patterns /\ today w' = today w /\
  (forall i name ops, patterns !! i = Some (name, ops) ->
     exists content, report name ops (today w) = inr content /\
       files w' !! post_path dir name (unique_id w + i) = Some (Text content)) /\
  (forall path,
     (forall i name ops, patterns !! i = Some (name, ops) ->
        path <> post_path dir name (unique_id w + i)) ->
     files w' !! path = files w !! path).
Proof.
  revert w. induction patterns as [|[name0 ops0] patterns IH]; intros w.
  - simpl. intros [= <-]. split; [lia|]. split; [done|]. split; [|done].
    intros i name ops Hi. by destruct i.
  - cbn [for_each]. unfold bind at 1. rewrite create_hugo_post_eq.
    destruct (report name0 ops0 (today w)) as [e|content0] eqn:Hrep; [done|].
    intros Hrun. destruct (IH _ Hrun) as (Hid & Hday & Hwritten & Hframe).
    cbn [unique_id today files] in Hid, Hday, Hwritten, Hframe.
    split; [simpl; lia|]. split; [done|]. split.
    + intros [|i] name ops Hi.
      * injection Hi as -> ->. exists content0. split; [done|].
        rewrite Nat.add_0_r, Hframe; [apply lookup_insert_eq|].
        intros j name' ops' _ Heq%post_path_inj. lia.
      * destruct (Hwritten i name ops Hi) as (content & ? & Hfile).
        exists content. split; [done|].
        by replace (unique_id w + S i) with (S (unique_id w) + i) by lia.
    + intros path Hpath. rewrite Hframe.
      * apply lookup_insert_ne. intros <-. apply (Hpath 0 name0 ops0); [done|].
        by rewrite Nat.add_0_r.
      * intros i name ops Hi Heq. apply (Hpath (S i) name ops Hi).
        by replace (unique_id w + S i) with (S (unique_id w) + i) by lia.
Qed.

Lemma generate_posts_eq patterns dir w :
  generate_posts patterns dir w =
  let w1 := World (unique_id w) (today w) (inputs w) (files w) (made_dirs w)
              (("Found " +:+ Str.of_nat (length patterns) +:+ " patterns")
               :: stdout w) in
  match for_each patterns (fun '(pattern_name, operations) =>
          create_hugo_post pattern_name operations dir) w1 with
  | (inr _, w2) =>
      (inr tt,
       World (unique_id w2) (today w2) (inputs w2) (files w2) (made_dirs w2)
             (("Generated " +:+ Str.of_nat (length patterns)
               +:+ " blog posts in " +:+ dir) :: stdout w2))
  | (inl e, w2) => (inl e, w2)
  end.
Proof.
  unfold generate_posts, bind, print. simpl.
  by destruct (for_each patterns _ _) as [[e|[]] w2].
Qed.

End posts.

(** C7. For the pattern name ["ns::Outer<T>"], the template suffix is cut at
    the first ['<'] and the namespace prefix up to the last ["::"]; what is
    left is sanitized, the current value of the counter is appended and the
    result lower-cased, so the identifier is ["outer_"] followed by the
    counter (["outer_0"] in a fresh process) and the counter advances by
    one; the class name of the search link is exactly ["Outer"]. *)
Theorem ns_outer_identifier (w : world) :
  Str.first (Str.split "<" "ns::Outer<T>") = "ns::Outer" /\
  Str.last (Str.split "::" "ns::Outer") = "Outer" /\
  sub_invalid "Outer" = "Outer" /\
  sanitize_filename "ns::Outer<T>" w
  = (inr ("outer_" +:+ Str.of_nat (unique_id w)),
     World (S (unique_id w)) (today w) (inputs w) (files w) (made_dirs w)
           (stdout w)) /\
  fst (sanitize_filename "ns::Outer<T>" (initial_world (today w) (inputs w)))
  = inr "outer_0" /\
  extract_class_name "ns::Outer<T>" = "Outer" /\
  search_url "ns::Outer<T>"
  = "https://github.com/search?q=repo%3Allvm%2Fllvm-project+path%3Amlir%20%22Outer%22&type=code".
Proof.
  split; [done|]. split; [done|]. split; [done|]. split; [|split; [done|done]].
  by rewrite sanitize_filename_eq, identifier_eq.
Qed.

(** C8. In one run of [generate_posts], two different patterns never get the
    same identifier, whether or not their sanitized names coincide: every
    call of [sanitize_filename] hands out the counter and advances it by one,
    so the [i]-th pattern gets [unique_id + i]. Their reports therefore have
    different paths, and after the run each path holds its own report. *)
Theorem reports_of_one_run_do_not_collide
  (patterns : odict modification) (dir : string) (w w' : world) (i j : nat)
  (name_i name_j : string) (ops_i ops_j : list modification) :
  generate_posts patterns dir w = (inr tt, w') ->
  patterns !! i = Some (name_i, ops_i) ->
  patterns !! j = Some (name_j, ops_j) ->
  i <> j ->
  (forall name w0,
     fst (sanitize_filename name w0) = inr (identifier name (unique_id w0)) /\
     unique_id (snd (sanitize_filename name w0)) = S (unique_id w0)) /\
  identifier name_i (unique_id w + i) <> identifier name_j (unique_id w + j) /\
  post_path dir name_i (unique_id w + i) <> post_path dir name_j (unique_id w + j) /\
  exists content_i content_j,
    report name_i ops_i (today w) = inr content_i /\
    report name_j ops_j (today w) = inr content_j /\
    files w' !! post_path dir name_i (unique_id w + i) = Some (Text content_i) /\
    files w' !! post_path dir name_j (unique_id w + j) = Some (Text content_j).
Proof.
  rewrite generate_posts_eq. cbv zeta.
  destruct (for_each patterns _ _) as [[e|[]] w2] eqn:Hloop; [done|].
  intros [= <-] Hi Hj Hne.
  destruct (for_each_posts _ _ _ _ Hloop) as (_ & _ & Hwritten & _).
  cbn [unique_id today files] in Hwritten |- *.
  split; [by intros name w0; rewrite sanitize_filename_eq|].
  split; [intros H%identifier_inj; lia|].
  split; [intros H%post_path_inj; lia|].
  destruct (Hwritten i _ _ Hi) as (content_i & ? & ?).
  destruct (Hwritten j _ _ Hj) as (content_j & ? & ?).
  by exists content_i, content_j.
Qed.

Lemma reports_of_one_run_do_not_collide_witness :
  let patterns := parse_lines ["a::Foo<int> | notifyOperationInserted | A";
                               "b::Foo | notifyOperationErased | B"] in
  let w := initial_world "2025-01-02" ∅ in
  sub_invalid (extract_class_name "a::Foo<int>") = sub_invalid (extract_class_name "b::Foo") /\
  identifier "a::Foo<int>" 0 = "foo_0" /\ identifier "b::Foo" 1 = "foo_1" /\
  post_path "out" "a::Foo<int>" 0 <> post_path "out" "b::Foo" 1 /\
  exists content_i content_j,
    files (snd (generate_posts patterns "out" w)) !! "out/foo_0.md" = Some (Text content_i) /\
    files (snd (generate_posts patterns "out" w)) !! "out/foo_1.md" = Some (Text content_j).
Proof.
  intros patterns w.
  destruct (reports_of_one_run_do_not_collide patterns "out" w
              (snd (generate_posts patterns "out" w)) 0 1
              "a::Foo<int>" "b::Foo"
              [Single INSERTED "A"] [Single ERASED "B"])
    as (_ & _ & Hpath & content_i & content_j & _ & _ & Hi & Hj).
  - vm_compute. reflexivity.
  - reflexivity.
  - reflexivity.
  - lia.
  - split; [reflexivity|]. split; [reflexivity|]. split; [reflexivity|].
    split; [exact Hpath|]. exists content_i, content_j. split; [exact Hi | exact Hj].
Defined.

(** ** Unrecognized labels *)

Section unknown_labels.
Implicit Types (w : world) (dir name : string) (ops : list modification)
  (m : modification) (patterns : odict modification).

Lemma bucket_of_unknown t :
  t ∉ LABELS ->
  bucket_of t = inl (ValueError ("unknown modification type: " +:+ t)).
Proof.
  unfold LABELS. rewrite !not_elem_of_cons.
  intros (H1 & H2 & H3 & H4 & H5 & _). unfold bucket_of.
  apply String.eqb_neq in H1, H2, H3, H4, H5.
  by rewrite H1, H2, H3, H4, H5.
Qed.


Lemma bucket_of_known t : t ∈ LABELS -> exists label, bucket_of t = inr label.
Proof.
  unfold LABELS. rewrite !elem_of_cons.
  intros [->|[->|[->|[->|[->|[]%elem_of_nil]]]]]; by eexists.
Qed.

(** The grouping loop raises on the first record with an unrecognized
    label. *)
Lemma group_operations_unknown ops m :
  m ∈ ops -> get_type m ∉ LABELS ->
  exists m', m' ∈ ops /\ (get_type m' ∉ LABELS) /\
    group_operations ops
    = inl (ValueError ("unknown modification type: " +:+ get_type m')).
Proof.
  unfold group_operations. generalize ([] : odict modification).
  induction ops as [|m0 ops IH]; intros acc Hin Hout.
  - by apply elem_of_nil in Hin.
  - cbn [fold_res]. unfold group_step at 1.
    destruct (decide (get_type m0 ∈ LABELS)) as [Hknown|Hunknown].
    + apply elem_of_cons in Hin as [->|Hin]; [done|].
      destruct (bucket_of_known _ Hknown) as [label ->]. simpl.
      destruct (IH (dict_append label m0 acc) Hin Hout) as (m' & ? & ? & ->).
      exists m'. split; [by right | done].
    + exists m0. split; [left|]. split; [done|].
      by rewrite (bucket_of_unknown _ Hunknown).
Qed.

Lemma report_unknown name ops day m :
  m ∈ ops -> get_type m ∉ LABELS ->
  exists m', m' ∈ ops /\ (get_type m' ∉ LABELS) /\
    report name ops day
    = inl (ValueError ("unknown modification type: " +:+ get_type m')).
Proof.
  intros Hin Hout. destruct (group_operations_unknown _ _ Hin Hout) as (m' & ? & ? & Hg).
  exists m'. unfold report. by rewrite Hg.
Qed.

Lemma for_each_posts_abort patterns dir w name ops :
  (name, ops) ∈ patterns ->
  (forall day, exists e, report name ops day = inl e) ->
  exists e w', for_each patterns (fun '(pattern_name, operations) =>
                 create_hugo_post pattern_name operations dir) w = (inl e, w').
Proof.
  intros Hin Hfail. revert w.
  induction patterns as [|[name0 ops0] patterns IH]; intros w.
  - by apply elem_of_nil in Hin.
  - cbn [for_each]. unfold bind at 1. rewrite create_hugo_post_eq.
    apply elem_of_cons in Hin as [[= <- <-]|Hin].
    + destruct (Hfail (today w)) as [e ->]. eauto.
    + destruct (report name0 ops0 (today w)); [eauto | by apply IH].
Qed.

End unknown_labels.

(** C6. A record whose label is none of the five recognized strings makes
    report generation raise: [create_hugo_post] of its pattern raises
    [ValueError] on the first such record and writes and prints nothing;
    [generate_posts] therefore stops with an error, and so does the whole
    run of [preprocess_data] on a file that the parser turns into such a
    record. *)
Theorem unknown_label_aborts_run
  (patterns : odict modification) (dir name : string)
  (ops : list modification) (m : modification) (w : world) :
  (name, ops) ∈ patterns -> m ∈ ops -> get_type m ∉ LABELS ->
  (exists m', m' ∈ ops /\ (get_type m' ∉ LABELS) /\
     forall w0, exists w1,
       create_hugo_post name ops dir w0
       = (inl (ValueError ("unknown modification type: " +:+ get_type m')), w1)
       /\ files w1 = files w0 /\ stdout w1 = stdout w0) /\
  (exists e w', generate_posts patterns dir w = (inl e, w')) /\
  (forall input_file output_dir index_output_dir index_output_filename lines,
     inputs w !! input_file = Some lines -> parse_lines lines = patterns ->
     exists e w',
       preprocess_data input_file output_dir dir index_output_dir
         index_output_filename w = (inl e, w')).
Proof.
  intros Hin Hm Hout.
  assert (forall day, exists e, report name ops day = inl e) as Hfail.
  { intros day. destruct (report_unknown name ops day m Hm Hout) as (m' & _ & _ & ->). eauto. }
  split; [|split].
  - destruct (group_operations_unknown _ _ Hm Hout) as (m' & ? & ? & Hg).
    exists m'. split; [done|]. split; [done|]. intros w0.
    rewrite create_hugo_post_eq. unfold report. rewrite Hg. simpl. eauto.
  - rewrite generate_posts_eq. cbv zeta.
    edestruct (for_each_posts_abort patterns dir) as (e & w' & ->); [done..|]. eauto.
  - intros input_file output_dir index_output_dir index_output_filename lines Hread <-.
    unfold preprocess_data, bind, makedirs, parse_file, lift, write_file.
    cbn [inputs]. rewrite Hread.
    destruct (build_search_index (parse_lines lines)) as [e|index]; [eauto|].
    rewrite generate_posts_eq. cbv zeta.
    edestruct (for_each_posts_abort (parse_lines lines) dir) as (e & w' & ->); [done..|]. eauto.
Qed.

Lemma unknown_label_aborts_run_witness :
  let lines := ["Good | notifyOperationErased | A";
                "Bad | notifyOperationMoved | B"] in
  let w := initial_world "2025-01-02" {[ "catalog.txt" := lines ]} in
  (exists e w', generate_posts (parse_lines lines) "out" w = (inl e, w')) /\
  exists e w',
    preprocess_data "catalog.txt" "search_data" "out" "website/static/"
      "pattern_catalog_index.json" w = (inl e, w').
Proof.
  intros lines w.
  destruct (unknown_label_aborts_run (parse_lines lines) "out" "Bad"
              [Single "notifyOperationMoved" "B"]
              (Single "notifyOperationMoved" "B") w) as (_ & Hgen & Hrun).
  - vm_compute. right. left.
  - left.
  - vm_compute. intros H. repeat (inversion H as [|? ? ? H']; clear H; rename H' into H).
  - split; [exact Hgen|]. by apply (Hrun "catalog.txt" _ _ _ lines).
Defined.

(** ** Sections of a report *)

Section sections.
Implicit Types (ops : list modification) (m : modification)
  (label content : string).

Lemma fold_res_snoc {A B : Type} (body : B -> A -> res B) l x b :
  fold_res body (l ++ [x]) b = rbind (fold_res body l b) (fun b' => body b' x).
Proof.
  revert b. induction l as [|y l IH]; intros b; simpl.
  - by destruct (body b x).
  - destruct (body b y) as [e|b']; [done|]. apply IH.
Qed.

Lemma elem_of_first_seen (l : list string) x : x ∈ first_seen l <-> x ∈ l.
Proof.
  induction l as [|y l IH]; [done|]. simpl. rewrite !elem_of_cons, <- IH.
  rewrite list_elem_of_In, List.filter_In, <- list_elem_of_In, negb_true_iff, String.eqb_neq.
  destruct (decide (x = y)); tauto.
Qed.

Lemma first_seen_snoc (l : list string) x :
  first_seen (l ++ [x])
  = if decide (x ∈ l) then first_seen l else first_seen l ++ [x].
Proof.
  induction l as [|y l IH]; [done|]. simpl. rewrite IH.
  destruct (decide (x ∈ l)) as [Hin|Hout].
  - rewrite decide_True; [done | by right].
  - rewrite List.filter_app. simpl. destruct (String.eqb_spec x y) as [->|Hne]; simpl.
    + rewrite decide_True; [by rewrite app_nil_r | left].
    + rewrite decide_False; [done|]. by intros [?|?]%elem_of_cons.
Qed.

(** Appending under a key of a dict whose keys are all different. *)
Lemma dict_append_map {V : Type} (g : string -> list V) (L : list string) k v :
  NoDup L ->
  dict_append k v (List.map (fun l => (l, g l)) L)
  = if decide (k ∈ L)
    then List.map (fun l => (l, if String.eqb l k then g l ++ [v] else g l)) L
    else List.map (fun l => (l, g l)) L ++ [(k, [v])].
Proof.
  induction 1 as [|l L Hl Hnd IH]; [done|]. simpl.
  destruct (String.eqb_spec l k) as [->|Hne].
  - rewrite decide_True by left. f_equal.
    apply List.map_ext_in. intros l Hin%list_elem_of_In.
    destruct (String.eqb_spec l k) as [->|]; done.
  - rewrite IH. destruct (decide (k ∈ L)) as [Hin|Hout].
    + rewrite decide_True; [done | by right].
    + rewrite decide_False; [done|]. intros [?|?]%elem_of_cons; congruence.
Qed.

Lemma first_seen_NoDup (l : list string) : NoDup (first_seen l).
Proof.
  induction l as [|x l IH]; [constructor|]. simpl. constructor.
  - rewrite list_elem_of_In, List.filter_In, String.eqb_refl. by intros [_ ?].
  - apply NoDup_ListNoDup, List.NoDup_filter, NoDup_ListNoDup, IH.
Qed.

Lemma has_label_absent label ops :
  label ∉ List.map label_of ops -> List.filter (has_label label) ops = [].
Proof.
  induction ops as [|m ops IH]; [done|]. simpl.
  intros [Hne Hout]%not_elem_of_cons. unfold has_label at 1.
  destruct (String.eqb_spec (label_of m) label); [congruence | auto].
Qed.

(** The grouping loop builds the buckets in first-seen order. *)
Lemma group_operations_eq ops :
  (forall m, m ∈ ops -> get_type m ∈ LABELS) ->
  group_operations ops = inr (sections_first_seen ops).
Proof.
  unfold group_operations.
  induction ops as [|m ops IH] using rev_ind; [done|]. intros Hknown.
  rewrite fold_res_snoc, IH
    by (intros m' ?; apply Hknown, elem_of_app; by left).
  simpl. unfold group_step.
  destruct (bucket_of_known (get_type m)) as [label Hb].
  { apply Hknown, elem_of_app. right. left. }
  rewrite Hb. simpl. f_equal.
  assert (label_of m = label) as Hl by (unfold label_of; by rewrite Hb).
  unfold sections_first_seen.
  rewrite dict_append_map by apply first_seen_NoDup.
  rewrite List.map_app. simpl. rewrite first_seen_snoc, Hl.
  destruct (decide (label ∈ first_seen (List.map label_of ops))) as [Hin|Hout].
  - rewrite decide_True by by apply elem_of_first_seen.
    apply List.map_ext. intros l. rewrite List.filter_app. simpl.
    replace (has_label l m) with (String.eqb l label)
      by (unfold has_label; by rewrite Hl, String.eqb_sym).
    destruct (String.eqb l label); [done | by rewrite List.app_nil_r].
  - rewrite decide_False by by rewrite <- elem_of_first_seen.
    rewrite List.map_app. simpl. f_equal.
    + apply List.map_ext_in. intros l Hin%list_elem_of_In.
      rewrite List.filter_app. simpl.
      replace (has_label l m) with (String.eqb label l)
        by (unfold has_label; by rewrite Hl).
      destruct (String.eqb_spec label l) as [<-|]; [done | by rewrite List.app_nil_r].
    + rewrite List.filter_app. simpl.
      replace (has_label label m) with true
        by (unfold has_label; by rewrite Hl, String.eqb_refl).
      rewrite has_label_absent; [done|].
      by rewrite <- elem_of_first_seen.
Qed.

Lemma group_operations_known ops by_type m :
  group_operations ops = inr by_type -> m ∈ ops -> get_type m ∈ LABELS.
Proof.
  intros Hg Hin. destruct (decide (get_type m ∈ LABELS)) as [|Hout]; [done|].
  destruct (group_operations_unknown _ _ Hin Hout) as (m' & _ & _ & Hg').
  congruence.
Qed.

(** Rendering only ever appends to the text so far. *)
Lemma render_item_app label content m :
  render_item label content m
  = let? text := render_item label "" m in inr (content +:+ text).
Proof.
  unfold render_item. destruct (String.eqb label "Operations replaced").
  - destruct (get_old_op m); [done|]. destruct (get_new_op m); done.
  - destruct (get_op m); done.
Qed.

Lemma render_items_app label content ms :
  fold_res (render_item label) ms content
  = let? text := fold_res (render_item label) ms "" in inr (content +:+ text).
Proof.
  revert content. induction ms as [|m ms IH]; intros content; simpl.
  - by rewrite str_app_nil_r.
  - rewrite (render_item_app label content m).
    destruct (render_item label "" m) as [e|text]; [done|]. simpl.
    rewrite IH, (IH text).
    destruct (fold_res (render_item label) ms "") as [e|rest]; [done|]. simpl.
    by rewrite str_app_assoc.
Qed.

Lemma render_section_app content section :
  render_section content section
  = let? text := render_section "" section in inr (content +:+ text).
Proof.
  destruct section as [label ms]. unfold render_section.
  rewrite render_items_app, (render_items_app label ("" +:+ _)).
  destruct (fold_res (render_item label) ms "") as [e|text]; [done|]. simpl.
  by rewrite !str_app_nil_l, !str_app_assoc.
Qed.

Lemma render_sections_concat sections content text :
  fold_res render_section sections content = inr text ->
  exists texts,
    Forall2 (fun section t => render_section "" section = inr t) sections texts
    /\ text = content +:+ String.concat "" texts.
Proof.
  revert content. induction sections as [|sec sections IH]; intros content; simpl.
  - intros [= <-]. exists []. split; [constructor | by rewrite str_app_nil_r].
  - rewrite render_section_app.
    destruct (render_section "" sec) as [e|t] eqn:Hsec; [done|]. simpl.
    intros (texts & Hall & ->)%IH. exists (t :: texts).
    split; [by constructor|].
    destruct texts; simpl; by rewrite ?str_app_nil_r, ?str_app_nil_l, ?str_app_assoc.
Qed.

End sections.

Lemma has_label_present (label : string) (ops : list modification) :
  label ∈ List.map label_of ops -> List.filter (has_label label) ops <> [].
Proof.
  induction ops as [|m ops IH]; simpl.
  - by intros ?%elem_of_nil.
  - intros [->|Hin]%elem_of_cons.
    + unfold has_label at 1. by rewrite String.eqb_refl.
    + destruct (has_label label m); [done | auto].
Qed.

(** C3 (amended). The sections of a report are its non-empty buckets in the
    order in which the records of the pattern first fill them, which is the
    order of the records in the input file and not a fixed order of the
    labels: the grouping loop yields [sections_first_seen], and the text of
    the report is the header followed by the texts of these sections in
    that order. *)
Theorem sections_follow_first_occurrence
  (name : string) (ops : list modification) (day text : string) :
  report name ops day = inr text ->
  group_operations ops = inr (sections_first_seen ops) /\
  keys (sections_first_seen ops) = first_seen (List.map label_of ops) /\
  (forall label ms, (label, ms) ∈ sections_first_seen ops ->
     ms = List.filter (has_label label) ops /\ ms <> []) /\
  exists texts,
    Forall2 (fun section t => render_section "" section = inr t)
            (sections_first_seen ops) texts /\
    text = header name day (search_url name) +:+ String.concat "" texts.
Proof.
  unfold report. destruct (group_operations ops) as [e|by_type] eqn:Hg; [done|].
  simpl. intros Hrender.
  assert (by_type = sections_first_seen ops) as ->.
  { assert (forall m, m ∈ ops -> get_type m ∈ LABELS) as Hknown
      by (intros m ?; by eapply group_operations_known).
    rewrite (group_operations_eq ops Hknown) in Hg. by injection Hg. }
  split; [done|]. split; [|split].
  - unfold keys, sections_first_seen. rewrite List.map_map. simpl. apply List.map_id.
  - unfold sections_first_seen. intros label ms Hin.
    apply list_elem_of_In, List.in_map_iff in Hin as (l & [= <- <-] & Hl).
    split; [done|]. apply has_label_present.
    by apply elem_of_first_seen, list_elem_of_In.
  - by apply render_sections_concat.
Qed.

Lemma sections_follow_first_occurrence_witness :
  keys (sections_first_seen
          [Single MODIFIED "A"; Single INSERTED "B"; Single MODIFIED "C"])
  = ["Operations modified"; "Operations inserted"].
Proof.
  destruct (sections_follow_first_occurrence "P"
              [Single MODIFIED "A"; Single INSERTED "B"; Single MODIFIED "C"]
              "2025-01-02"
              (header "P" "2025-01-02" (search_url "P") +:+
               "### Operations modified" +:+ nl +:+ nl +:+
               "- `A`" +:+ nl +:+ "- `C`" +:+ nl +:+ nl +:+
               "### Operations inserted" +:+ nl +:+ nl +:+
               "- `B`" +:+ nl +:+ nl))
    as (_ & Hkeys & _).
  - vm_compute. reflexivity.
  - rewrite Hkeys. vm_compute. reflexivity.
Defined.

(** C3 as stated fails: with an inserted record ahead of a replaced one in
    the file, the report has "Operations inserted" before "Operations
    replaced", against the fixed order; the same two lines in the other
    order give the other report. *)
Lemma section_order_depends_on_record_order :
  parse_lines ["P | notifyOperationInserted | B";
               "P | notifyOperationReplaced (with op) | A | C"]
  = [("P", [Single INSERTED "B"; Replaced REPLACED_WITH_OP "A" "C"])] /\
  parse_lines ["P | notifyOperationReplaced (with op) | A | C";
               "P | notifyOperationInserted | B"]
  = [("P", [Replaced REPLACED_WITH_OP "A" "C"; Single INSERTED "B"])] /\
  group_operations [Single INSERTED "B"; Replaced REPLACED_WITH_OP "A" "C"]
  = inr [("Operations inserted", [Single INSERTED "B"]);
         ("Operations replaced", [Replaced REPLACED_WITH_OP "A" "C"])] /\
  sections_in_fixed_order [Single INSERTED "B"; Replaced REPLACED_WITH_OP "A" "C"]
  = [("Operations replaced", [Replaced REPLACED_WITH_OP "A" "C"]);
     ("Operations inserted", [Single INSERTED "B"])] /\
  group_operations [Single INSERTED "B"; Replaced REPLACED_WITH_OP "A" "C"]
  <> inr (sections_in_fixed_order
            [Single INSERTED "B"; Replaced REPLACED_WITH_OP "A" "C"]) /\
  report "P" [Single INSERTED "B"; Replaced REPLACED_WITH_OP "A" "C"] "2025-01-02"
  = inr (header "P" "2025-01-02" (search_url "P") +:+
         "### Operations inserted" +:+ nl +:+ nl +:+
         "- `B`" +:+ nl +:+ nl +:+
         "### Operations replaced" +:+ nl +:+ nl +:+
         "- `A` → `C`" +:+ nl +:+ nl) /\
  report "P" [Single INSERTED "B"; Replaced REPLACED_WITH_OP "A" "C"] "2025-01-02"
  <> report "P" [Replaced REPLACED_WITH_OP "A" "C"; Single INSERTED "B"] "2025-01-02".
Proof.
  split; [reflexivity|]. split; [reflexivity|]. split; [reflexivity|].
  split; [reflexivity|]. split; [vm_compute; discriminate|].
  split; [vm_compute; reflexivity|]. vm_compute. discriminate.
Qed.

(** ** Shapes of parsed records *)

Lemma parsed_record_shape (lines : list string) (name : string)
  (mods : list modification) (m : modification) :
  (name, mods) ∈ parse_lines lines -> m ∈ mods ->
  match m with
  | Replaced t _ _ => t = REPLACED_WITH_OP
  | Single _ _ => True
  end.
Proof.
  intros Hin Hm. destruct (parse_lines_records _ _ _ _ Hin Hm) as (line & _ & _ & _ & ->).
  pose proof (record_of_shape (fields line)) as Hs.
  destruct (record_of (fields line)); [by destruct Hs | done].
Qed.



(** ** The summary of the driver *)

(** No report of the default pages directory lands on the default path of
    the index. *)
Lemma post_path_not_index name n :
  post_path "website/content/patterns/" name n
  <> path_join "website/static/" "pattern_catalog_index.json".
Proof.
  unfold post_path, path_join. rewrite identifier_not_absolute.
  change (String.eqb _ "" || Str.endswith _ "/") with true. cbv iota.
  intros H. vm_compute in H. discriminate H.
Qed.

(** Whenever the run with the default arguments completes, the index is in
    the file under [index_output_dir] while the summary names the file under
    [output_dir]. *)
Lemma default_run_summary (input_file : string) (w w' : world) :
  preprocess_data_default input_file w = (inr tt, w') ->
  (exists index,
     files w' !! "website/static/pattern_catalog_index.json" = Some (Json index)) /\
  nth 1 (stdout w') ""
  = "Preprocessing complete. Search index saved to 'search_data/pattern_catalog_index.json'".
Proof.
  unfold preprocess_data_default, preprocess_data, bind, makedirs, parse_file, lift,
    write_file, print.
  cbn [inputs]. destruct (inputs w !! input_file) as [lines|]; [|done].
  destruct (build_search_index (parse_lines lines)) as [e|index]; [done|].
  rewrite generate_posts_eq. cbv zeta.
  destruct (for_each (parse_lines lines) _ _) as [[e|[]] w2] eqn:Hloop; [done|].
  intros [= <-]. cbn [files stdout nth].
  destruct (for_each_posts _ _ _ _ Hloop) as (_ & _ & _ & Hframe).
  cbn [files unique_id] in Hframe. split; [|done].
  exists index. rewrite Hframe; [apply lookup_insert_eq|].
  intros i name ops _. symmetry. apply post_path_not_index.
Qed.

(** C5 (the code departs from it). With the default arguments the index is
    written to ["website/static/pattern_catalog_index.json"], yet the
    summary printed at the end says it was saved to
    ["search_data/pattern_catalog_index.json"], a path the run never writes;
    the directory the run makes is ["search_data"] too. *)
Theorem summary_names_unwritten_path (date : string) :
  path_join "website/static/" "pattern_catalog_index.json"
  = "website/static/pattern_catalog_index.json" /\
  path_join "search_data" "pattern_catalog_index.json"
  = "search_data/pattern_catalog_index.json" /\
  let run :=
    main ["postprocess_pattern_catalog.py"; "catalog.txt"]
      (initial_world date
         {[ "catalog.txt" := ["FooPattern | notifyOperationInserted | NewOp"] ]}) in
  fst run = inr tt /\
  files (snd run) !! "website/static/pattern_catalog_index.json"
  = Some (Json {[ "NewOp" := ["FooPattern"] ]}) /\
  files (snd run) !! "search_data/pattern_catalog_index.json" = None /\
  stdout (snd run)
  = ["Class pages generated in 'website/content/patterns/'";
     "Preprocessing complete. Search index saved to 'search_data/pattern_catalog_index.json'";
     "Generated 1 blog posts in website/content/patterns/";
     "Generated: website/content/patterns/foopattern_0.md";
     "Found 1 patterns"] /\
  made_dirs (snd run) = ["website/content/patterns/"; "search_data"].
Proof. repeat split. Qed.

(** * Further properties *)

(** ** Whitespace around a line *)

Section whitespace.
Implicit Types (s ws : string).

Lemma lstrip_spaces ws s :
  Str.forallb Str.is_space ws = true -> Str.lstrip (ws +:+ s) = Str.lstrip s.
Proof.
  induction ws as [|c ws IH]; [done|]. simpl. intros [Hc Hws]%andb_prop.
  rewrite Hc. auto.
Qed.

Lemma rstrip_spaces ws :
  Str.forallb Str.is_space ws = true -> Str.rstrip ws = "".
Proof.
  induction ws as [|c ws IH]; [done|]. simpl. intros [Hc Hws]%andb_prop.
  by rewrite (IH Hws), Hc.
Qed.

Lemma rstrip_app_spaces s ws :
  Str.forallb Str.is_space ws = true -> Str.rstrip (s +:+ ws) = Str.rstrip s.
Proof.
  intros Hws. induction s as [|c s IH].
  - rewrite str_app_nil_l. by apply rstrip_spaces.
  - rewrite str_app_cons. simpl. by rewrite IH.
Qed.

Lemma strip_app_spaces s ws :
  Str.forallb Str.is_space ws = true -> Str.strip (s +:+ ws) = Str.strip s.
Proof.
  intros Hws. unfold Str.strip. induction s as [|c s IH].
  - rewrite str_app_nil_l. rewrite <- (str_app_nil_r ws), lstrip_spaces by done.
    done.
  - rewrite str_app_cons. simpl. destruct (Str.is_space c); [done|].
    rewrite <- str_app_cons. by apply rstrip_app_spaces.
Qed.

Lemma strip_surrounded ws1 s ws2 :
  Str.forallb Str.is_space ws1 = true -> Str.forallb Str.is_space ws2 = true ->
  Str.strip (ws1 +:+ s +:+ ws2) = Str.strip s.
Proof.
  intros H1 H2. rewrite <- (strip_app_spaces s ws2 H2).
  unfold Str.strip. by rewrite lstrip_spaces.
Qed.

End whitespace.

(** X1. White space (blanks, tabs, the line feed that ends a line, ...)
    before and after a line changes nothing of what [parse_file] makes of
    that line. *)
Theorem parse_line_ignores_surrounding_space
  (patterns : odict modification) (ws1 line ws2 : string) :
  Str.forallb Str.is_space ws1 = true ->
  Str.forallb Str.is_space ws2 = true ->
  parse_line patterns (ws1 +:+ line +:+ ws2) = parse_line patterns line.
Proof.
  intros H1 H2. unfold parse_line. by rewrite strip_surrounded.
Qed.

Lemma parse_line_ignores_surrounding_space_witness :
  parse_line [] (String.append "    " (String.append "P | notifyOperationErased | A"
                   (String "009" (String "013" (String "010" "")))))
  = parse_line [] "P | notifyOperationErased | A".
Proof.
  apply (parse_line_ignores_surrounding_space [] "    "
           "P | notifyOperationErased | A"
           (String "009" (String "013" (String "010" "")))); reflexivity.
Defined.

(** ** The parsed dict as a whole *)

Section grouping.
Context {V : Type}.
Implicit Types (d : odict V) (kvs : list (string * V)).

Lemma grouped_snoc kvs k v :
  grouped (kvs ++ [(k, v)]) = dict_append k v (grouped kvs).
Proof.
  unfold grouped. rewrite dict_append_map by apply first_seen_NoDup.
  rewrite List.map_app. simpl. rewrite first_seen_snoc.
  destruct (decide (k ∈ first_seen (List.map fst kvs))) as [Hin|Hout].
  - rewrite decide_True by by apply elem_of_first_seen.
    apply List.map_ext. intros l. rewrite List.filter_app, List.map_app. simpl.
    rewrite String.eqb_sym.
    destruct (String.eqb l k); [done | by rewrite List.app_nil_r].
  - rewrite decide_False by by rewrite <- elem_of_first_seen.
    rewrite List.map_app. simpl. f_equal.
    + apply List.map_ext_in. intros l Hin%list_elem_of_In.
      rewrite List.filter_app, List.map_app. simpl.
      destruct (String.eqb_spec k l) as [<-|]; [done | by rewrite List.app_nil_r].
    + rewrite List.filter_app, List.map_app. simpl. rewrite String.eqb_refl.
      rewrite elem_of_first_seen in Hout.
      assert (List.filter (fun kv : string * V => String.eqb (fst kv) k) kvs = []) as ->; [|done].
      clear -Hout. induction kvs as [|[k' v'] kvs IH]; [done|]. simpl in *.
      apply not_elem_of_cons in Hout as [Hne Hout].
      destruct (String.eqb_spec k' k); [congruence | auto].
Qed.

Lemma fold_dict_append kvs :
  fold_left (fun d kv => dict_append (fst kv) (snd kv) d) kvs [] = grouped kvs.
Proof.
  induction kvs as [|[k v] kvs IH] using rev_ind; [done|].
  by rewrite fold_left_app, IH, grouped_snoc.
Qed.

Lemma values_dict_append k v d : values (dict_append k v d) ≡ₚ v :: values d.
Proof.
  unfold values. induction d as [|[k' vs] d IH]; [done|]. simpl.
  destruct (String.eqb k' k); simpl.
  - rewrite <- List.app_assoc. simpl. by rewrite <- Permutation_middle.
  - rewrite IH. by rewrite <- Permutation_middle.
Qed.

End grouping.

Section parsed_dict.
Implicit Types (line : string) (lines : list string).

Lemma kept_spec line : kept line = true <-> 3 <= length (fields line).
Proof. unfold kept. apply Nat.leb_le. Qed.

Lemma parse_line_kept patterns line :
  parse_line patterns line
  = if kept line then dict_append (name_of line) (record_of (fields line)) patterns
    else patterns.
Proof.
  destruct (parse_line_cases patterns line) as [[Hlt ->]|[Hge ->]].
  - unfold kept. by destruct (Nat.leb_spec 3 (length (fields line))); [lia|].
  - by rewrite (proj2 (kept_spec line) Hge).
Qed.

(** The whole result of the parser in one equation. *)
Lemma parse_lines_grouped lines :
  parse_lines lines = grouped (List.map entry_of (List.filter kept lines)).
Proof.
  induction lines as [|line lines IH] using rev_ind; [done|].
  rewrite parse_lines_snoc, parse_line_kept, IH, List.filter_app.
  cbn [List.filter]. destruct (kept line).
  - rewrite List.map_app.
    change (List.map entry_of [line])
      with [(name_of line, record_of (fields line))].
    by rewrite grouped_snoc.
  - by rewrite List.app_nil_r.
Qed.

End parsed_dict.

(** X2. Blank lines and lines with fewer than three fields leave no trace:
    the parser returns the same dict for a file and for the file without
    them. *)
Theorem parse_drops_short_lines (lines : list string) :
  parse_lines (List.filter kept lines) = parse_lines lines /\
  (forall line, Str.strip line = "" -> kept line = false) /\
  (forall patterns line, kept line = false -> parse_line patterns line = patterns).
Proof.
  split; [|split].
  - rewrite !parse_lines_grouped. f_equal. f_equal.
    induction lines as [|l lines IH]; [done|]. simpl.
    destruct (kept l) eqn:Hk; simpl; rewrite ?Hk; by rewrite IH.
  - intros line He. unfold kept. by rewrite (fields_blank _ He).
  - intros patterns line Hk. by rewrite parse_line_kept, Hk.
Qed.

Lemma parse_drops_short_lines_witness :
  parse_lines ["P | notifyOperationErased | A"]
  = parse_lines ["   "; "P | notifyOperationErased | A"; "P | A"] /\
  kept "   " = false /\ parse_line [] "P | A" = [].
Proof.
  destruct (parse_drops_short_lines
              ["   "; "P | notifyOperationErased | A"; "P | A"])
    as (H1 & H2 & H3).
  split; [exact H1|]. split; [apply H2; reflexivity | apply H3; reflexivity].
Defined.

Lemma parse_lines_keys_eq (lines : list string) :
  keys (parse_lines lines)
  = first_seen (List.map name_of (List.filter kept lines)).
Proof.
  rewrite parse_lines_grouped. unfold keys, grouped.
  rewrite !List.map_map. simpl. by rewrite List.map_id.
Qed.

(** X3. The pattern names of the parsed dict are all different and come in
    the order in which they first occur as the first field of a kept line
    of the file. *)
Theorem parse_keys_in_first_seen_order (lines : list string) :
  keys (parse_lines lines)
  = first_seen (List.map name_of (List.filter kept lines)) /\
  NoDup (keys (parse_lines lines)).
Proof.
  split; [apply parse_lines_keys_eq|].
  rewrite parse_lines_keys_eq. apply first_seen_NoDup.
Qed.

(** X4. Under each pattern name the parsed dict holds, in the order of the
    file, exactly the records of the kept lines whose first field is that
    name. *)
Theorem parse_records_in_file_order
  (lines : list string) (name : string) (mods : list modification) :
  (name, mods) ∈ parse_lines lines ->
  mods = List.map (fun line => record_of (fields line))
           (List.filter (fun line => kept line && String.eqb (name_of line) name)
                        lines)
  /\ mods <> [].
Proof.
  rewrite parse_lines_grouped. unfold grouped.
  intros (k & [= <- <-] & Hk)%list_elem_of_In%List.in_map_iff.
  assert (forall ls,
            List.map snd (List.filter (fun kv : string * modification =>
                                         String.eqb (fst kv) k)
                            (List.map entry_of (List.filter kept ls)))
            = List.map (fun line => record_of (fields line))
                (List.filter (fun line => kept line && String.eqb (name_of line) k) ls))
    as Heq.
  { induction ls as [|l ls IH]; [done|]. simpl.
    destruct (kept l); simpl; [|done].
    destruct (String.eqb (name_of l) k); simpl; by rewrite IH. }
  split; [apply Heq|]. rewrite Heq.
  rewrite <- list_elem_of_In, elem_of_first_seen, List.map_map, list_elem_of_In,
    List.in_map_iff in Hk.
  destruct Hk as (l & Hname & [Hl Hkept]%List.filter_In).
  simpl in Hname. subst k. clear Heq. induction lines as [|l0 lines IH]; [done|]. simpl.
  destruct Hl as [->|Hl].
  - by rewrite Hkept, String.eqb_refl.
  - destruct (kept l0 && String.eqb (name_of l0) (name_of l)); [done | auto].
Qed.

Lemma parse_records_in_file_order_witness :
  [Single INSERTED "A"; Single ERASED "C"]
  = List.map (fun line => record_of (fields line))
      (List.filter (fun line => kept line && String.eqb (name_of line) "P")
         ["P | notifyOperationInserted | A"; "Q | notifyOperationErased | B";
          "junk"; "P | notifyOperationErased | C"]).
Proof.
  apply (parse_records_in_file_order
           ["P | notifyOperationInserted | A"; "Q | notifyOperationErased | B";
            "junk"; "P | notifyOperationErased | C"] "P").
  vm_compute. left.
Defined.

(** X5. Parsing neither loses nor invents a record: the records of the
    parsed dict, taken together, are the records of the kept lines, each as
    often as its line occurs. *)
Theorem parse_keeps_every_record (lines : list string) :
  values (parse_lines lines)
  ≡ₚ List.map (fun line => record_of (fields line)) (List.filter kept lines) /\
  length (values (parse_lines lines)) = length (List.filter kept lines).
Proof.
  assert (values (parse_lines lines)
          ≡ₚ List.map (fun line => record_of (fields line)) (List.filter kept lines))
    as Hperm.
  { induction lines as [|line lines IH] using rev_ind; [done|].
    rewrite parse_lines_snoc, parse_line_kept, List.filter_app. simpl.
    destruct (kept line); simpl.
    - rewrite values_dict_append, IH, List.map_app. simpl.
      by rewrite <- Permutation_cons_append.
    - by rewrite List.app_nil_r. }
  split; [done|]. by rewrite Hperm, List.length_map.
Qed.

(** X6. Splitting loses no character: the fields of a line, joined again
    with [" | "], are the stripped line, and a line always has at least one
    field. *)
Theorem fields_join_back (line : string) :
  String.concat " | " (fields line) = Str.strip line /\ fields line <> [].
Proof.
  split; [by apply join_split | apply split_from_nonnil].
Qed.

(** ** The search index, further *)

Section index_further.
Implicit Types (idx : gmap string (gset string)) (op p q : string)
  (m : modification) (patterns : odict modification) (lines : list string).

Lemma index_add_inhabited idx op p :
  inhabited_sets idx -> inhabited_sets (index_add op p idx).
Proof.
  intros Hinh op' names. unfold index_add.
  destruct (decide (op = op')) as [->|Hne].
  - rewrite lookup_insert_eq. intros [= <-]. exists p. set_solver.
  - rewrite lookup_insert_ne by done. apply Hinh.
Qed.

Lemma index_mod_inhabited p idx m idx' :
  index_mod p idx m = inr idx' -> inhabited_sets idx -> inhabited_sets idx'.
Proof.
  unfold index_mod.
  destruct m as [t o n|t o]; simpl; destruct (String.eqb t REPLACED_WITH_OP);
    simpl; intros [= <-] Hinh; auto using index_add_inhabited.
Qed.

Lemma index_mods_inhabited p mods idx idx' :
  fold_res (index_mod p) mods idx = inr idx' ->
  inhabited_sets idx -> inhabited_sets idx'.
Proof.
  revert idx. induction mods as [|m mods IH]; simpl; intros idx.
  - by intros [= <-].
  - destruct (index_mod p idx m) as [e|idx1] eqn:Hm; simpl; [done|].
    intros Hfold Hinh. eapply IH; [done|]. by eapply index_mod_inhabited.
Qed.

Lemma index_patterns_inhabited patterns idx idx' :
  fold_res index_pattern patterns idx = inr idx' ->
  inhabited_sets idx -> inhabited_sets idx'.
Proof.
  revert idx. induction patterns as [|[p0 mods0] patterns IH]; simpl; intros idx.
  - by intros [= <-].
  - destruct (fold_res (index_mod p0) mods0 idx) as [e|idx1] eqn:Hm; simpl; [done|].
    intros Hfold Hinh. eapply IH; [done|]. by eapply index_mods_inhabited.
Qed.



(** The shape of the record of a line, by the fields of the line. *)
Lemma record_of_well_shaped parts :
  well_shaped (record_of parts)
  <-> (nth 1 parts "" = REPLACED_WITH_OP -> length parts = 4).
Proof.
  pose proof (record_of_shape parts) as Hs.
  destruct (record_of parts) as [t o n|t o]; simpl.
  - destruct Hs as [-> ?]. by split.
  - destruct Hs as [-> Hor]. split.
    + by intros Hne ?.
    + intros Himp Heq. destruct Hor as [?|Hlen]; [done | by apply Hlen, Himp].
Qed.

Lemma parsed_records_iff lines p m :
  (exists mods, (p, mods) ∈ parse_lines lines /\ m ∈ mods) <->
  (exists line, line ∈ lines /\ kept line = true /\ p = name_of line
                /\ m = record_of (fields line)).
Proof.
  split.
  - intros (mods & Hin & Hm).
    destruct (parse_lines_records _ _ _ _ Hin Hm) as (l & ? & ?%kept_spec & ? & ?).
    by exists l.
  - intros (l & Hin & Hk%kept_spec & -> & ->). by apply parse_lines_complete.
Qed.

(** The only error of building the index of a parsed file. *)
Lemma parsed_index_error lines e :
  build_search_index (parse_lines lines) = inl e -> e = KeyError "old_op".
Proof.
  unfold build_search_index.
  destruct (fold_res index_pattern (parse_lines lines) ∅) as [e'|idx] eqn:Hfold;
    [|done].
  intros [= <-].
  assert (forall name mods m, (name, mods) ∈ parse_lines lines -> m ∈ mods ->
            match m with
            | Replaced t _ _ => t = REPLACED_WITH_OP
            | Single _ _ => True
            end) as Hshape by apply parsed_record_shape.
  revert Hfold Hshape. generalize (∅ : gmap string (gset string)).
  induction (parse_lines lines) as [|[p0 mods0] patterns IH]; simpl;
    intros idx0 Hfold Hshape; [done|].
  destruct (fold_res (index_mod p0) mods0 idx0) as [e0|idx1] eqn:Hm; simpl in Hfold.
  - injection Hfold as <-. eapply index_mods_error; [done|].
    intros m ?. eapply Hshape; [left | done].
  - eapply IH; [done|]. intros name mods m ? ?. eapply Hshape; [by right | done].
Qed.

Lemma parsed_index_returns lines :
  returns (build_search_index (parse_lines lines)) <->
  (forall line, line ∈ lines -> kept line = true ->
     nth 1 (fields line) "" = REPLACED_WITH_OP -> length (fields line) = 4).
Proof.
  split.
  - intros [index Hb] line Hin Hk Hlabel.
    destruct (proj2 (parsed_records_iff lines (name_of line) (record_of (fields line))))
      as (mods & Hmods & Hm); [by exists line|].
    pose proof (build_search_index_shape _ _ _ _ _ Hb Hmods Hm) as Hws.
    by apply record_of_well_shaped in Hws.
  - intros Hcrit. apply build_search_index_total. intros p mods m Hin Hm.
    destruct (proj1 (parsed_records_iff lines p m)) as (l & Hl & Hk & _ & ->);
      [by exists mods|].
    apply record_of_well_shaped. by apply Hcrit.
Qed.

End index_further.

(** X7. The index holds nothing of its own making: a name under a key is the
    name of a pattern with a record that refers to that key, and every key
    has at least one name. *)
Theorem search_index_sound
  (patterns : odict modification) (index : gmap string (list string))
  (op : string) (l : list string) :
  build_search_index patterns = inr index ->
  index !! op = Some l ->
  l <> [] /\
  forall q, q ∈ l ->
    exists mods m, (q, mods) ∈ patterns /\ m ∈ mods /\ op ∈ mod_ops m.
Proof.
  intros Hb Hl. split.
  - unfold build_search_index in Hb.
    destruct (fold_res index_pattern patterns ∅) as [e|idx] eqn:Hfold; [done|].
    injection Hb as <-. rewrite lookup_fmap in Hl.
    destruct (idx !! op) as [names|] eqn:E; [|done]. injection Hl as <-.
    destruct (index_patterns_inhabited _ _ _ Hfold) with (op := op) (names := names)
      as [q Hq]; [|done|].
    + intros op' names' H'. by rewrite lookup_empty in H'.
    + intros He. apply elem_of_elements in Hq. rewrite He in Hq.
      by apply elem_of_nil in Hq.
  - intros q Hq. destruct (build_search_index_spec _ _ Hb) as (_ & _ & Hsound).
    destruct (Hsound op l q Hl Hq) as (mods & ? & m & ? & ?). by exists mods, m.
Qed.

Lemma search_index_sound_witness :
  exists index,
    build_search_index [("P", [Replaced REPLACED_WITH_OP "A" "B"])] = inr index /\
    forall q, q ∈ ["P"] ->
      exists mods m, (q, mods) ∈ [("P", [Replaced REPLACED_WITH_OP "A" "B"])]
                     /\ m ∈ mods /\ "B" ∈ mod_ops m.
Proof.
  eexists. split; [reflexivity|].
  eapply (search_index_sound [("P", [Replaced REPLACED_WITH_OP "A" "B"])] _ "B" ["P"]);
    reflexivity.
Defined.

(** X8. The index of a parsed file is built exactly when every kept with-op
    line of the file has four fields; when it is not built, the error is
    the [KeyError] on ["old_op"], whatever else the file holds. *)
Theorem index_of_parsed_file_returns_iff (lines : list string) :
  (returns (build_search_index (parse_lines lines)) <->
   forall line, line ∈ lines -> kept line = true ->
     nth 1 (fields line) "" = REPLACED_WITH_OP -> length (fields line) = 4) /\
  (forall e, build_search_index (parse_lines lines) = inl e ->
     e = KeyError "old_op").
Proof. split; [apply parsed_index_returns | apply parsed_index_error]. Qed.

Lemma index_of_parsed_file_returns_iff_witness :
  returns (build_search_index
             (parse_lines ["P | notifyOperationReplaced (with op) | A | B"])).
Proof.
  apply (index_of_parsed_file_returns_iff
           ["P | notifyOperationReplaced (with op) | A | B"]).
  intros line Hin%list_elem_of_singleton Hkept Hlabel. subst line. reflexivity.
Defined.



(** ** Identifiers, class names and links, further *)

Section names_further.
Implicit Types (s t sep name : string) (c d : ascii) (n : nat).

Lemma forallb_map P f s :
  Str.forallb P (Str.map f s) = Str.forallb (fun c => P (f c)) s.
Proof. induction s as [|c s IH]; [done|]. simpl. by rewrite IH. Qed.

Lemma sanitized_char_identifier c :
  is_identifier_char
    (Str.lower_char (if is_filename_char c then c else "_"%char)) = true.
Proof. by destruct c as [[] [] [] [] [] [] [] []]. Qed.

Lemma digit_identifier c : Str.is_digit c = true -> is_identifier_char c = true.
Proof.
  unfold is_identifier_char. intros ->. by rewrite orb_true_r.
Qed.

Lemma identifier_chars name n :
  Str.forallb is_identifier_char (identifier name n) = true.
Proof.
  rewrite identifier_eq, !forallb_app, !andb_true_iff. split; [|split; [done|]].
  - unfold Str.lower, sub_invalid. rewrite !forallb_map.
    induction (extract_class_name name) as [|c s IH]; [done|]. simpl.
    by rewrite sanitized_char_identifier.
  - eapply forallb_impl; [apply digit_identifier | apply of_nat_digits].
Qed.

(** The fields of a split are made of characters of the string. *)
Lemma split_from_forallb P sep k s :
  Str.forallb P s = true ->
  Forall (fun f => Str.forallb P f = true) (Str.split_from sep k s).
Proof.
  revert k. induction s as [|c s IH]; intros k; simpl.
  - intros _. by repeat constructor.
  - intros [Hc Hs]%andb_prop. destruct k as [|k]; [|by apply IH].
    destruct (match sep with "" => true | String _ _ => _ end).
    + constructor; [done | by apply IH].
    + pose proof (IH 0 Hs) as Hall.
      destruct (Str.split_from sep 0 s) as [|f fs].
      * repeat constructor. simpl. by rewrite Hc.
      * apply Forall_cons in Hall as [Hf Hfs]. constructor; [|done].
        simpl. by rewrite Hc, Hf.
Qed.

Lemma Forall_last (P : string -> Prop) (l : list string) :
  P "" -> Forall P l -> P (Str.last l).
Proof.
  unfold Str.last. intros H0. induction 1 as [|x l Hx Hl IH]; [done|].
  destruct l; [done | exact IH].
Qed.

(** A field of a split on one character does not hold that character. *)
Lemma split_char_free c s :
  Forall (fun f => Str.forallb (fun d => negb (Ascii.eqb d c)) f = true)
         (Str.split (String c "") s).
Proof.
  induction s as [|d s IH]; [by repeat constructor|].
  destruct (String.prefix (String c "") (String d s)) eqn:Hp.
  - apply prefix_app in Hp as [r Hr]. rewrite Hr, split_sep by done.
    injection Hr as -> ->. by constructor.
  - rewrite split_char by done.
    assert (Ascii.eqb d c = false) as Hdc.
    { destruct (Ascii.eqb_spec d c) as [->|]; [|done].
      change (String c s) with (String c "" +:+ s) in Hp.
      by rewrite prefix_app_true in Hp. }
    pose proof (split_from_nonnil (String c "") 0 s) as Hne. unfold Str.split in *.
    destruct (Str.split_from (String c "") 0 s) as [|f fs]; [done|].
    apply Forall_cons in IH as [Hf Hfs]. constructor; [|done].
    simpl. by rewrite Hdc, Hf.
Qed.

(** A string without the first character of the separator is one field. *)
Lemma split_absent c sep s :
  Str.forallb (fun d => negb (Ascii.eqb d c)) s = true ->
  Str.split (String c sep) s = [s].
Proof.
  induction s as [|d s IH]; [done|]. simpl. intros [Hd Hs]%andb_prop.
  rewrite split_char, (IH Hs); [done|]. cbn [String.prefix].
  destruct (ascii_dec c d) as [->|]; [|done].
  by rewrite Ascii.eqb_refl in Hd.
Qed.

Lemma quote_chars s : Str.forallb is_quoted_char (quote s) = true.
Proof.
  assert (forall c, is_quoted_char (hex_digit (nat_of_ascii c / 16)) = true
                    /\ is_quoted_char (hex_digit (nat_of_ascii c mod 16)) = true)
    as Hhex by (by intros [[] [] [] [] [] [] [] []]).
  induction s as [|c s IH]; [done|]. cbn [quote].
  destruct (is_unreserved c) eqn:Hc; cbn [Str.forallb].
  - unfold is_quoted_char at 1. by rewrite Hc, IH.
  - destruct (Hhex c) as [-> ->]. by rewrite IH.
Qed.

Lemma quote_app s t : quote (s +:+ t) = quote s +:+ quote t.
Proof.
  induction s as [|c s IH]; [done|]. rewrite str_app_cons. simpl. rewrite IH.
  by destruct (is_unreserved c).
Qed.

Lemma quote_unreserved s : Str.forallb is_unreserved s = true -> quote s = s.
Proof.
  induction s as [|c s IH]; [done|]. simpl. intros [-> Hs]%andb_prop.
  by rewrite IH.
Qed.

End names_further.

(** X10. Whatever the pattern name, the identifier that [sanitize_filename]
    returns is not empty and is made of lower-case letters, digits, ['_']
    and ['-'] only; the call never fails. *)
Theorem identifier_is_safe (name : string) (w : world) :
  exists id, fst (sanitize_filename name w) = inr id /\ id <> "" /\
    Str.forallb is_identifier_char id = true.
Proof.
  exists (identifier name (unique_id w)). rewrite sanitize_filename_eq.
  split; [done|]. split; [|apply identifier_chars].
  rewrite identifier_eq.
  destruct (Str.lower (sub_invalid (extract_class_name name))); done.
Qed.

(** X11. The class name that [extract_class_name] returns never holds a
    ['<'], and is made of characters of the pattern name. *)
Theorem class_name_has_no_template (name : string) (P : ascii -> bool) :
  Str.forallb (fun c => negb (Ascii.eqb c "<")) (extract_class_name name) = true /\
  (Str.forallb P name = true -> Str.forallb P (extract_class_name name) = true).
Proof.
  assert (forall Q : ascii -> bool,
            Str.forallb Q (Str.first (Str.split "<" name)) = true ->
            Str.forallb Q (extract_class_name name) = true) as Hlast.
  { intros Q HQ. unfold extract_class_name.
    apply (Forall_last (fun f => Str.forallb Q f = true)); [done|].
    by apply split_from_forallb. }
  split.
  - apply Hlast. pose proof (split_char_free "<" name) as Hall.
    unfold Str.first. by destruct Hall.
  - intros HP. apply Hlast.
    pose proof (split_from_forallb P "<" 0 name HP) as Hall.
    unfold Str.first, Str.split. by destruct Hall.
Qed.

Lemma class_name_has_no_template_witness :
  Str.forallb (fun c => negb (Ascii.eqb c " ")) (extract_class_name "A::BC<D>")
  = true.
Proof.
  apply (class_name_has_no_template "A::BC<D>" (fun c => negb (Ascii.eqb c " "))).
  reflexivity.
Defined.

(** X12. A pattern name with neither ['<'] nor [':'] is its own class name,
    and its identifier is its lower-cased sanitized form followed by the
    counter. *)
Theorem plain_name_is_class_name (name : string) (n : nat) :
  Str.forallb (fun c => negb (Ascii.eqb c "<")) name = true ->
  Str.forallb (fun c => negb (Ascii.eqb c ":")) name = true ->
  extract_class_name name = name /\
  identifier name n = Str.lower (sub_invalid name) +:+ "_" +:+ Str.of_nat n.
Proof.
  intros Hlt Hcolon.
  assert (extract_class_name name = name) as Heq.
  { unfold extract_class_name. rewrite (split_absent "<" "" name Hlt).
    unfold Str.first. simpl hd. by rewrite (split_absent ":" ":" name Hcolon). }
  split; [done|]. by rewrite identifier_eq, Heq.
Qed.

Lemma plain_name_is_class_name_witness :
  extract_class_name "Fold Add" = "Fold Add" /\
  identifier "Fold Add" 3 = "fold_add_3".
Proof.
  destruct (plain_name_is_class_name "Fold Add" 3) as [H1 H2];
    [reflexivity | reflexivity |].
  split; [exact H1 | rewrite H2; reflexivity].
Defined.

(** X13. The link of a report is the fixed address, the quoted query and
    the fixed ending, and the quoted query holds unreserved characters and
    ['%'] only: nothing in a pattern name can cut or extend the address.
    The query is the quoted ["path:mlir "], then the class name quoted
    between two quoted double quotes. *)
Theorem search_url_query_is_quoted (name : string) :
  exists query,
    search_url name
    = "https://github.com/search?q=repo%3Allvm%2Fllvm-project+" +:+ query
      +:+ "&type=code" /\
    Str.forallb is_quoted_char query = true /\
    query = "path%3Amlir%20%22" +:+ quote (extract_class_name name) +:+ "%22".
Proof.
  exists (quote ("path:mlir " +:+ dq +:+ extract_class_name name +:+ dq)).
  split; [done|]. split; [apply quote_chars|].
  by rewrite !quote_app.
Qed.

(** X14. A class name made of letters, digits and [_.-~/] goes into the link
    as it is. *)
Theorem search_url_of_plain_class_name (name : string) :
  Str.forallb is_unreserved (extract_class_name name) = true ->
  search_url name
  = "https://github.com/search?q=repo%3Allvm%2Fllvm-project+path%3Amlir%20%22"
    +:+ extract_class_name name +:+ "%22&type=code".
Proof.
  intros Hplain. unfold search_url.
  rewrite !quote_app, (quote_unreserved _ Hplain).
  change (quote "path:mlir ") with "path%3Amlir%20".
  change (quote dq) with "%22".
  by rewrite !str_app_assoc.
Qed.

Lemma search_url_of_plain_class_name_witness :
  search_url "mlir::FoldAdd<T>"
  = "https://github.com/search?q=repo%3Allvm%2Fllvm-project+path%3Amlir%20%22"
    +:+ "FoldAdd" +:+ "%22&type=code".
Proof. apply (search_url_of_plain_class_name "mlir::FoldAdd<T>"). reflexivity. Defined.

(** ** When a report is rendered *)

Section report_returns.
Implicit Types (m : modification) (ms ops : list modification)
  (label content name day : string).

Lemma label_of_replaced m :
  get_type m ∈ LABELS ->
  (label_of m = "Operations replaced" <-> get_type m = REPLACED_WITH_OP).
Proof.
  unfold label_of, LABELS. rewrite !elem_of_cons.
  intros [->|[->|[->|[->|[->|[]%elem_of_nil]]]]]; by split.
Qed.

Lemma label_of_bucket m label :
  get_type m ∈ LABELS ->
  (label_of m = label <-> bucket_of (get_type m) = inr label).
Proof.
  intros [l Hb]%bucket_of_known. unfold label_of. rewrite Hb.
  split; [by intros -> | by intros [= ->]].
Qed.

Lemma render_item_returns m content :
  get_type m ∈ LABELS ->
  (returns (render_item (label_of m) content m) <-> well_shaped m).
Proof.
  intros Hk. pose proof (label_of_replaced m Hk) as Hrep. unfold render_item.
  destruct (String.eqb_spec (label_of m) "Operations replaced") as [He|Hne].
  - apply Hrep in He. destruct m as [t o n|t o]; simpl in *.
    + split; [done | intros _; by eexists].
    + split; [by intros [? ?] | done].
  - destruct m as [t o n|t o]; simpl in *.
    + split; [by intros [? ?] | intros ->; by destruct Hne; apply Hrep].
    + split; [intros _ Ht; by apply Hne, Hrep | intros _; by eexists].
Qed.

Lemma render_items_returns label content ms :
  returns (fold_res (render_item label) ms content) <->
  (forall m, m ∈ ms -> returns (render_item label "" m)).
Proof.
  revert content. induction ms as [|m ms IH]; intros content; simpl.
  - split; [by intros _ m ?%elem_of_nil | intros _; by eexists].
  - rewrite (render_item_app label content m).
    destruct (render_item label "" m) as [e|text] eqn:Hm; simpl.
    + split; [by intros [? ?]|]. intros H.
      destruct (H m) as [? ?]; [left | congruence].
    + rewrite IH. split.
      * intros H m' [->|?]%elem_of_cons; [rewrite Hm; by eexists | auto].
      * intros H m' ?. apply H. by right.
Qed.

Lemma render_section_returns content label ms :
  returns (render_section content (label, ms)) <->
  (forall m, m ∈ ms -> returns (render_item label "" m)).
Proof.
  rewrite <- (render_items_returns label (content +:+ "### " +:+ label +:+ nl +:+ nl)).
  unfold render_section.
  destruct (fold_res (render_item label) ms _) as [e|text]; simpl.
  - split; by intros [? ?].
  - split; intros _; by eexists.
Qed.

Lemma render_sections_returns (sections : odict modification) content :
  returns (fold_res render_section sections content) <->
  (forall label ms m, (label, ms) ∈ sections -> m ∈ ms ->
     returns (render_item label "" m)).
Proof.
  revert content. induction sections as [|[l0 ms0] sections IH]; intros content;
    cbn [fold_res].
  - split; [by intros _ ? ? ? ?%elem_of_nil | intros _; by eexists].
  - pose proof (render_section_returns content l0 ms0) as Hsec.
    destruct (render_section content (l0, ms0)) as [e|text]; cbn [rbind].
    + split; [by intros [? ?]|]. intros H.
      destruct (proj2 Hsec) as [? ?]; [|done]. intros m ?. by apply (H l0 ms0); [left|].
    + rewrite IH. split.
      * intros H label ms m [[= -> ->]|?]%elem_of_cons Hm.
        -- apply Hsec; [by eexists | done].
        -- by eapply H.
      * intros H label ms m ? ?. eapply H; [by right | done].
Qed.

Lemma render_item_returns_any m content :
  returns (render_item (label_of m) content m) <->
  returns (render_item (label_of m) "" m).
Proof.
  rewrite (render_item_app _ content m).
  destruct (render_item (label_of m) "" m); simpl; split; try done; intros _; by eexists.
Qed.

(** A report is rendered exactly when every record has one of the five
    labels and the keys that its label promises. *)
Lemma report_returns name ops day :
  returns (report name ops day) <->
  (forall m, m ∈ ops -> get_type m ∈ LABELS /\ well_shaped m).
Proof.
  unfold report. split.
  - destruct (group_operations ops) as [e|by_type] eqn:Hg; [by intros [? ?]|].
    simpl. intros Hr m Hm.
    assert (forall m, m ∈ ops -> get_type m ∈ LABELS) as Hknown
      by (intros m' ?; by eapply group_operations_known).
    split; [by apply Hknown|].
    rewrite (group_operations_eq ops Hknown) in Hg. injection Hg as <-.
    apply (render_item_returns m ""); [by apply Hknown|].
    apply render_sections_returns
      with (label := label_of m) (ms := List.filter (has_label (label_of m)) ops)
           (m := m) in Hr; [done|..].
    + unfold sections_first_seen. apply list_elem_of_In, List.in_map_iff.
      exists (label_of m). split; [done|].
      apply list_elem_of_In, elem_of_first_seen, list_elem_of_In, List.in_map.
      by apply list_elem_of_In.
    + apply list_elem_of_In, List.filter_In. split; [by apply list_elem_of_In|].
      unfold has_label. apply String.eqb_refl.
  - intros Hall.
    rewrite (group_operations_eq ops) by (intros m ?; by apply Hall). simpl.
    apply render_sections_returns. intros label ms m Hsec Hm.
    unfold sections_first_seen in Hsec.
    apply list_elem_of_In, List.in_map_iff in Hsec as (l & [= <- <-] & _).
    apply list_elem_of_In, List.filter_In in Hm as [Hm Hl%String.eqb_eq].
    apply list_elem_of_In in Hm. destruct (Hall m Hm) as [Hk Hws].
    rewrite <- Hl. by apply render_item_returns.
Qed.

Lemma group_values (ops : list modification) (acc by_type : odict modification) :
  fold_res group_step ops acc = inr by_type -> values by_type ≡ₚ values acc ++ ops.
Proof.
  revert acc. induction ops as [|m ops IH]; intros acc; simpl.
  - intros [= <-]. by rewrite List.app_nil_r.
  - unfold group_step at 1. destruct (bucket_of (get_type m)) as [e|label]; [done|].
    simpl. intros Hf%IH. rewrite Hf, values_dict_append.
    by rewrite <- Permutation_middle.
Qed.

End report_returns.

(** X15. [create_hugo_post] renders the report of a pattern exactly when
    every record of the pattern has one of the five labels, a with-op record
    has its [old_op] and [new_op], and any other record has its [op]. *)
Theorem report_returns_iff
  (name : string) (ops : list modification) (day : string) :
  returns (report name ops day) <->
  (forall m, m ∈ ops -> get_type m ∈ LABELS /\ well_shaped m).
Proof. apply report_returns. Qed.

Lemma report_returns_iff_witness :
  returns (report "P" [Replaced REPLACED_WITH_OP "A" "B"; Single ERASED "C"]
             "2025-01-02").
Proof.
  apply (report_returns_iff "P" [Replaced REPLACED_WITH_OP "A" "B"; Single ERASED "C"]).
  intros m Hm. rewrite !elem_of_cons, elem_of_nil in Hm.
  destruct Hm as [->|[->|[]]];
    (split; [unfold LABELS; simpl; rewrite !elem_of_cons; auto 10 | done]).
Defined.

(** X16. Grouping the records of a pattern by type loses and invents
    nothing: the buckets together hold the records of the pattern, each
    bucket the records whose type maps to its label. *)
Theorem grouping_keeps_every_record
  (ops : list modification) (by_type : odict modification) :
  group_operations ops = inr by_type ->
  values by_type ≡ₚ ops /\
  (forall label ms m, (label, ms) ∈ by_type -> m ∈ ms ->
     m ∈ ops /\ bucket_of (get_type m) = inr label).
Proof.
  intros Hg. split; [by apply group_values in Hg|].
  assert (forall m, m ∈ ops -> get_type m ∈ LABELS) as Hknown
    by (intros m' ?; by eapply group_operations_known).
  rewrite (group_operations_eq ops Hknown) in Hg. injection Hg as <-.
  intros label ms m Hsec Hm. unfold sections_first_seen in Hsec.
  apply list_elem_of_In, List.in_map_iff in Hsec as (l & [= <- <-] & _).
  apply list_elem_of_In, List.filter_In in Hm as [Hm Hl%String.eqb_eq].
  apply list_elem_of_In in Hm. split; [done|].
  by apply label_of_bucket; [apply Hknown|].
Qed.

Lemma grouping_keeps_every_record_witness :
  values [("Operations erased", [Single ERASED "A"; Single ERASED "C"]);
          ("Operations inserted", [Single INSERTED "B"])]
  ≡ₚ [Single ERASED "A"; Single INSERTED "B"; Single ERASED "C"].
Proof.
  apply (grouping_keeps_every_record
           [Single ERASED "A"; Single INSERTED "B"; Single ERASED "C"]).
  reflexivity.
Defined.

(** ** Runs of [generate_posts] and [preprocess_data] *)

Section runs.
Implicit Types (w : world) (dir name : string) (ops : list modification)
  (patterns : odict modification) (lines : list string).

Local Abbreviation post_loop patterns dir :=
  (for_each patterns (fun '(pattern_name, operations) =>
     create_hugo_post pattern_name operations dir)).

(** Whatever its outcome, the loop touches the paths of reports only. *)
Lemma post_loop_any patterns dir w r w' :
  post_loop patterns dir w = (r, w') ->
  today w' = today w /\ inputs w' = inputs w /\
  (forall path, (forall name n, path <> post_path dir name n) ->
     files w' !! path = files w !! path).
Proof.
  revert w. induction patterns as [|[name0 ops0] patterns IH]; intros w.
  - simpl. by intros [= <- <-].
  - cbn [for_each]. unfold bind at 1. rewrite create_hugo_post_eq.
    destruct (report name0 ops0 (today w)) as [e|content0].
    + by intros [= <- <-].
    + intros (Hday & Hin & Hframe)%IH. cbn [today inputs files] in *.
      split; [done|]. split; [done|]. intros path Hpath.
      rewrite Hframe by done. by apply lookup_insert_ne.
Qed.


Lemma post_loop_log patterns dir w w' :
  post_loop patterns dir w = (inr tt, w') ->
  stdout w' = rev (generated_lines dir patterns (unique_id w)) ++ stdout w /\
  made_dirs w' = List.repeat dir (length patterns) ++ made_dirs w.
Proof.
  revert w. induction patterns as [|[name0 ops0] patterns IH]; intros w.
  - simpl. by intros [= <-].
  - cbn [for_each]. unfold bind at 1. rewrite create_hugo_post_eq.
    destruct (report name0 ops0 (today w)) as [e|content0]; [done|].
    intros [Hout Hdirs]%IH. cbn [stdout made_dirs unique_id] in *.
    split.
    + rewrite Hout. cbn [generated_lines rev]. by rewrite <- List.app_assoc.
    + rewrite Hdirs. cbn [length List.repeat].
      by rewrite List.repeat_cons, <- List.app_assoc.
Qed.


Lemma post_path_in_dir dir name n :
  String.prefix dir (post_path dir name n) = true.
Proof.
  unfold post_path, path_join. rewrite identifier_not_absolute.
  destruct (String.eqb dir "" || Str.endswith dir "/"); apply prefix_app_true.
Qed.

Lemma generate_posts_complete patterns dir w w' :
  generate_posts patterns dir w = (inr tt, w') ->
  unique_id w' = unique_id w + length patterns /\
  stdout w'
  = ("Generated " +:+ Str.of_nat (length patterns) +:+ " blog posts in " +:+ dir)
    :: rev (generated_lines dir patterns (unique_id w))
    ++ ("Found " +:+ Str.of_nat (length patterns) +:+ " patterns") :: stdout w /\
  made_dirs w' = List.repeat dir (length patterns) ++ made_dirs w.
Proof.
  rewrite generate_posts_eq. cbv zeta.
  destruct (for_each patterns _ _) as [[e|[]] w2] eqn:Hloop; [done|].
  intros [= <-]. cbn [unique_id stdout made_dirs].
  destruct (for_each_posts _ _ _ _ Hloop) as (Hid & _).
  destruct (post_loop_log _ _ _ _ Hloop) as [Hout Hdirs].
  cbn [unique_id stdout made_dirs] in *. by rewrite Hout.
Qed.

Lemma generate_posts_frame patterns dir w w' (r : res unit) path :
  generate_posts patterns dir w = (r, w') ->
  (forall name n, path <> post_path dir name n) ->
  files w' !! path = files w !! path.
Proof.
  rewrite generate_posts_eq. cbv zeta.
  destruct (for_each patterns _ _) as [r2 w2] eqn:Hloop.
  destruct (post_loop_any _ _ _ _ _ Hloop) as (_ & _ & Hframe).
  cbn [files] in Hframe. intros Hrun Hout.
  assert (files w' = files w2) as -> by (destruct r2; by injection Hrun as _ <-).
  by apply Hframe.
Qed.

End runs.

(** X17. A complete run of [generate_posts] advances the counter by the
    number of patterns and prints, in this order, the count of patterns, one
    progress line per report with its path, and the closing count; the
    output directory is made once per report. *)
Theorem generate_posts_log
  (patterns : odict modification) (dir : string) (w w' : world) :
  generate_posts patterns dir w = (inr tt, w') ->
  unique_id w' = unique_id w + length patterns /\
  stdout w'
  = ("Generated " +:+ Str.of_nat (length patterns) +:+ " blog posts in " +:+ dir)
    :: rev (generated_lines dir patterns (unique_id w))
    ++ ("Found " +:+ Str.of_nat (length patterns) +:+ " patterns") :: stdout w /\
  made_dirs w' = List.repeat dir (length patterns) ++ made_dirs w.
Proof. apply generate_posts_complete. Qed.

Lemma generate_posts_log_witness :
  stdout (snd (generate_posts [("a::Foo", [Single ERASED "A"]);
                               ("Bar", [Single INSERTED "B"])]
                 "out" (initial_world "2025-01-02" ∅)))
  = ["Generated 2 blog posts in out"; "Generated: out/bar_1.md";
     "Generated: out/foo_0.md"; "Found 2 patterns"].
Proof.
  apply (generate_posts_log [("a::Foo", [Single ERASED "A"]);
                             ("Bar", [Single INSERTED "B"])]
           "out" (initial_world "2025-01-02" ∅)).
  vm_compute. reflexivity.
Defined.

(** X18. Whether it completes or stops on an error, [generate_posts] writes
    under its output directory only: a file whose path does not start with
    the directory is left as it was. *)
Theorem generate_posts_writes_in_dir_only
  (patterns : odict modification) (dir : string) (w w' : world)
  (r : res unit) (path : string) :
  generate_posts patterns dir w = (r, w') ->
  String.prefix dir path = false ->
  files w' !! path = files w !! path.
Proof.
  intros Hrun Hout. eapply generate_posts_frame; [done|].
  intros name n ->. by rewrite post_path_in_dir in Hout.
Qed.

Lemma generate_posts_writes_in_dir_only_witness :
  files (snd (generate_posts [("Foo", [Single ERASED "A"])] "out"
                (World 0 "2025-01-02" ∅ {[ "index.json" := Text "kept" ]} [] [])))
    !! "index.json"
  = Some (Text "kept").
Proof.
  rewrite (generate_posts_writes_in_dir_only [("Foo", [Single ERASED "A"])] "out"
             (World 0 "2025-01-02" ∅ {[ "index.json" := Text "kept" ]} [] [])
             _ (inr tt) "index.json"); reflexivity.
Defined.



(** ** The whole run *)

Section whole_run.
Implicit Types (w : world) (lines : list string).


(** The run in one step, once the file is read and the index built. *)
Lemma preprocess_data_eq input_file output_dir class_pages_dir index_output_dir
  index_output_filename w lines index :
  inputs w !! input_file = Some lines ->
  build_search_index (parse_lines lines) = inr index ->
  preprocess_data input_file output_dir class_pages_dir index_output_dir
    index_output_filename w
  = match generate_posts (parse_lines lines) class_pages_dir
            (World (unique_id w) (today w) (inputs w)
               (<[path_join index_output_dir index_output_filename := Json index]>
                  (files w))
               (output_dir :: made_dirs w) (stdout w)) with
    | (inr _, w2) =>
        (inr tt,
         World (unique_id w2) (today w2) (inputs w2) (files w2) (made_dirs w2)
           (("Class pages generated in '" +:+ class_pages_dir +:+ "'")
            :: ("Preprocessing complete. Search index saved to '"
                +:+ path_join output_dir index_output_filename +:+ "'")
            :: stdout w2))
    | (inl e, w2) => (inl e, w2)
    end.
Proof.
  intros Hread Hbuild.
  unfold preprocess_data, bind, makedirs, parse_file, lift, write_file, print.
  cbn [inputs unique_id today files made_dirs stdout]. rewrite Hread, Hbuild.
  by destruct (generate_posts _ _ _) as [[e|[]] w2].
Qed.

End whole_run.







(** X23. A complete run writes one report per different pattern name of the
    file: the counter advances by the number of different first fields of
    the kept lines, and the run prints the count of patterns, one progress
    line per report, the closing count and the two lines of the summary. *)
Theorem complete_run_counts
  (input_file output_dir class_pages_dir index_output_dir
     index_output_filename : string) (w w' : world) (lines : list string) :
  inputs w !! input_file = Some lines ->
  preprocess_data input_file output_dir class_pages_dir index_output_dir
    index_output_filename w = (inr tt, w') ->
  let n := length (first_seen (List.map name_of (List.filter kept lines))) in
  unique_id w' = unique_id w + n /\
  stdout w'
  = ("Class pages generated in '" +:+ class_pages_dir +:+ "'")
    :: ("Preprocessing complete. Search index saved to '"
        +:+ path_join output_dir index_output_filename +:+ "'")
    :: ("Generated " +:+ Str.of_nat n +:+ " blog posts in " +:+ class_pages_dir)
    :: rev (generated_lines class_pages_dir (parse_lines lines) (unique_id w))
    ++ ("Found " +:+ Str.of_nat n +:+ " patterns") :: stdout w /\
  made_dirs w' = List.repeat class_pages_dir n ++ output_dir :: made_dirs w.
Proof.
  intros Hread Hrun n.
  assert (length (parse_lines lines) = n) as Hn.
  { unfold n. rewrite <- (parse_lines_keys_eq lines).
    unfold keys. by rewrite List.length_map. }
  destruct (build_search_index (parse_lines lines)) as [e|index] eqn:Hbuild.
  { unfold preprocess_data, bind, makedirs, parse_file, lift in Hrun.
    cbn [inputs] in Hrun. by rewrite Hread, Hbuild in Hrun. }
  rewrite (preprocess_data_eq _ _ _ _ _ _ _ _ Hread Hbuild) in Hrun.
  destruct (generate_posts _ _ _) as [[e|[]] w2] eqn:Hgen; [done|].
  injection Hrun as <-. cbn [unique_id stdout made_dirs].
  destruct (generate_posts_complete _ _ _ _ Hgen) as (Hid & Hout & Hdirs).
  cbn [unique_id stdout made_dirs] in *. rewrite Hn in *.
  by rewrite Hid, Hout, Hdirs.
Qed.

Lemma complete_run_counts_witness :
  unique_id
    (snd (preprocess_data "catalog.txt" "search_data" "out" "static/" "index.json"
            (initial_world "2025-01-02"
               {[ "catalog.txt" := ["P | notifyOperationErased | A";
                                    "Q | notifyOperationErased | A";
                                    "P | notifyOperationInserted | B"] ]})))
  = 0 + 2.
Proof.
  refine (proj1 (complete_run_counts "catalog.txt" "search_data" "out" "static/"
                   "index.json"
                   (initial_world "2025-01-02"
                      {[ "catalog.txt" := ["P | notifyOperationErased | A";
                                           "Q | notifyOperationErased | A";
                                           "P | notifyOperationInserted | B"] ]})
                   _
                   ["P | notifyOperationErased | A"; "Q | notifyOperationErased | A";
                    "P | notifyOperationInserted | B"] _ _)).
  - reflexivity.
  - vm_compute. reflexivity.
Defined.

(** X24. The index and the parsed dict name the same patterns: when the
    index of a parsed file is built, a name is a key of the dict exactly
    when it is listed under some operation of the index. *)
Theorem index_lists_exactly_the_patterns
  (lines : list string) (index : gmap string (list string)) (name : string) :
  build_search_index (parse_lines lines) = inr index ->
  (name ∈ keys (parse_lines lines) <->
   exists op l, index !! op = Some l /\ name ∈ l).
Proof.
  intros Hbuild.
  destruct (build_search_index_spec _ _ Hbuild) as (_ & Hall & Hsound).
  split.
  - intros (line & Hin & Hge & ->)%parse_lines_keys.
    destruct (parse_lines_complete lines line Hin Hge) as (mods & Hmods & Hrec).
    assert (exists op, op ∈ mod_ops (record_of (fields line))) as [op Hop]
      by (destruct (record_of (fields line)); eexists; left).
    destruct (Hall _ mods op Hmods) as (l & ? & ?); [by eexists|].
    by exists op, l.
  - intros (op & l & Hl & Hq). destruct (Hsound op l name Hl Hq) as (mods & Hin & _).
    unfold keys. apply list_elem_of_In, List.in_map_iff.
    exists (name, mods). split; [done | by apply list_elem_of_In].
Qed.

Lemma index_lists_exactly_the_patterns_witness :
  exists op l,
    (elements <$> ({[ "A" := {[ "P" ]} ]} : gmap string (gset string))) !! op = Some l
    /\ "P" ∈ l.
Proof.
  apply (index_lists_exactly_the_patterns ["P | notifyOperationErased | A"]).
  - reflexivity.
  - left.
Defined.
